(** * Companies House search scraper: the row extractor and the SIC loader

    A shallow embedding of [search_companies] from
    [get_companies_house_companies.py].  Python text is a [string] of
    ASCII characters; an exception is a value of [exn] carried by
    [result]; the two HTTP fetches are a function from URLs to parsed
    pages, and the URLs requested are returned next to the outcome. *)

From Stdlib Require Import Ascii String.
From stdpp Require Import base option list strings gmap.

(** ** Python values: exceptions *)

(** What a [ValueError] raised by this program says.  Python has one
    class for all of them; the message tells them apart. *)
Inductive value_error :=
| NotAValid (value cls : string)      (* Enum: 'value' is not a valid cls *)
| EmptySeparator                      (* str.split with an empty separator *)
| NotInList (value : string)          (* list.index on an absent element *)
| TimeDataMismatch (data : string)    (* strptime: data does not match format *)
| UnconvertedData (rest : string)     (* strptime: unconverted data remains *)
| YearOutOfRange (y : nat)            (* datetime: year 0 *)
| DayOutOfRange (d : nat).            (* datetime: day is out of range for month *)

Inductive exn :=
| AttributeError (attr : string)      (* 'NoneType' object has no attribute attr *)
| IndexError                          (* list index out of range *)
| KeyError (key : string)             (* Enum class subscripted by an unknown name *)
| ValueError (why : value_error).

(** The Python class of an exception, as an [except] clause sees it. *)
Definition exn_class (e : exn) : string :=
  match e with
  | AttributeError _ => "AttributeError"
  | IndexError => "IndexError"
  | KeyError _ => "KeyError"
  | ValueError _ => "ValueError"
  end.

Inductive result (A : Type) :=
| Ok (a : A)
| Raise (e : exn).
Arguments Ok {A} a.
Arguments Raise {A} e.

#[export] Instance result_ret : MRet result := @Ok.
#[export] Instance result_bind : MBind result := λ A B f m,
  match m with
  | Ok a => f a
  | Raise e => Raise e
  end.
#[export] Instance result_fmap : FMap result := λ A B f m,
  match m with
  | Ok a => Ok (f a)
  | Raise e => Raise e
  end.

(** ** Python values: strings and lists *)

(** [startswith p s]: [s.startswith(p)]. *)
Fixpoint startswith (p s : string) : bool :=
  match p, s with
  | EmptyString, _ => true
  | String a p', String b s' => Ascii.eqb a b && startswith p' s'
  | String _ _, EmptyString => false
  end.

Fixpoint str_drop (n : nat) (s : string) : string :=
  match n, s with
  | O, _ => s
  | S _, EmptyString => EmptyString
  | S n', String _ s' => str_drop n' s'
  end.

(** [str_in sub s]: the Python test [sub in s] on two strings (case
    sensitive, any position). *)
Fixpoint str_in (sub s : string) : bool :=
  startswith sub s ||
  match s with
  | EmptyString => false
  | String _ s' => str_in sub s'
  end.

(** [str_cut sep s]: the text before and the text after the leftmost
    occurrence of [sep] in [s], when there is one. *)
Fixpoint str_cut (sep s : string) : option (string * string) :=
  if startswith sep s then Some (EmptyString, str_drop (String.length sep) s)
  else
    match s with
    | EmptyString => None
    | String c s' =>
        match str_cut sep s' with
        | Some (before, after) => Some (String c before, after)
        | None => None
        end
    end.

(** The pieces between the occurrences of [sep], scanning left to right
    without overlap.  [n] bounds the number of cuts. *)
Fixpoint split_pieces (n : nat) (sep s : string) : list string :=
  match n with
  | O => [s]
  | S n' =>
      match str_cut sep s with
      | None => [s]
      | Some (before, after) => before :: split_pieces n' sep after
      end
  end.

Definition str_pieces (sep s : string) : list string :=
  split_pieces (String.length s) sep s.

(** [str_split s sep]: [s.split(sep)].  The result is never empty; an
    empty separator is a [ValueError]. *)
Definition str_split (s sep : string) : result (list string) :=
  match sep with
  | EmptyString => Raise (ValueError EmptySeparator)
  | String _ _ => Ok (str_pieces sep s)
  end.

(** [str_join sep l]: [sep.join(l)]. *)
Fixpoint str_join (sep : string) (l : list string) : string :=
  match l with
  | [] => EmptyString
  | [x] => x
  | x :: l' => x +:+ sep +:+ str_join sep l'
  end.

(** [str_replace_char s a b]: [s.replace(a, b)] for one-character [a]
    and [b]. *)
Fixpoint str_replace_char (s : string) (a b : ascii) : string :=
  match s with
  | EmptyString => EmptyString
  | String c s' => String (if Ascii.eqb c a then b else c) (str_replace_char s' a b)
  end.

(** Truth value of a string in an [if]: non-empty. *)
Definition str_truthy (s : string) : bool :=
  match s with
  | EmptyString => false
  | String _ _ => true
  end.

(** [getitem l i]: [l[i]] for a non-negative index. *)
Definition getitem {A} (l : list A) (i : nat) : result A :=
  match l !! i with
  | Some x => Ok x
  | None => Raise IndexError
  end.

(** [list_in x l]: [x in l] on a list of strings. *)
Definition list_in (x : string) (l : list string) : bool :=
  existsb (String.eqb x) l.

(** [list_index l x]: [l.index(x)], the position of the first element
    equal to [x]. *)
Fixpoint list_index (l : list string) (x : string) : result nat :=
  match l with
  | [] => Raise (ValueError (NotInList x))
  | y :: l' => if String.eqb y x then Ok 0 else S <$> list_index l' x
  end.

(** ** [datetime.strptime(data, "%d %B %Y").date()]

    The format compiles to the regular expression
    [(3[0-1]|[1-2]\d|0[1-9]|[1-9]| [1-9])\s+(january|...|december)\s+(\d\d\d\d)],
    matched at the start of [data] ignoring case; the match has to use
    up [data], and the three numbers have to form a calendar date.
    Month names are those of the C locale. *)

Record date := mkdate { year : nat; month : nat; day : nat }.

(** [\d] on ASCII text: the digits 0 to 9.  Text here has no
    character outside ASCII; Python would also take the decimal digits
    of other scripts. *)
Definition is_digit (c : ascii) : bool :=
  let n := nat_of_ascii c in (48 <=? n) && (n <=? 57).

Definition digit_val (c : ascii) : nat := nat_of_ascii c - 48.

(** [\s] on ASCII text: tab to carriage return, the four separators
    28 to 31 and the space.  Python would also take white space
    outside ASCII, such as the no-break space. *)
Definition is_space (c : ascii) : bool :=
  let n := nat_of_ascii c in
  ((9 <=? n) && (n <=? 13)) || ((28 <=? n) && (n <=? 32)).

Definition ascii_lower (c : ascii) : ascii :=
  let n := nat_of_ascii c in
  if (65 <=? n) && (n <=? 90) then ascii_of_nat (n + 32) else c.

Fixpoint startswith_nocase (p s : string) : bool :=
  match p, s with
  | EmptyString, _ => true
  | String a p', String b s' =>
      Ascii.eqb (ascii_lower a) (ascii_lower b) && startswith_nocase p' s'
  | String _ _, EmptyString => false
  end.

(** The alternatives of [%d], tried in the order of the expression.  A
    later alternative never matches where an earlier one did and the
    white space after it did not, so the first match is the only one. *)
Definition parse_day (s : string) : option (nat * string) :=
  match s with
  | String c1 rest =>
      let d1 := digit_val c1 in
      let one :=
        if is_digit c1 && negb (d1 =? 0) then Some (d1, rest) else None in
      match rest with
      | String c2 rest' =>
          let d2 := digit_val c2 in
          if (d1 =? 3) && is_digit c1 && is_digit c2 && (d2 <=? 1)
          then Some (30 + d2, rest')
          else if is_digit c1 && (1 <=? d1) && (d1 <=? 2) && is_digit c2
          then Some (10 * d1 + d2, rest')
          else if is_digit c1 && (d1 =? 0) && is_digit c2 && (1 <=? d2)
          then Some (d2, rest')
          else if is_digit c1 && (1 <=? d1)
          then Some (d1, rest)
          else if Ascii.eqb c1 " " && is_digit c2 && (1 <=? d2)
          then Some (d2, rest')
          else None
      | EmptyString => one
      end
  | EmptyString => None
  end.

Fixpoint lstrip_space (s : string) : string :=
  match s with
  | String c s' => if is_space c then lstrip_space s' else s
  | EmptyString => EmptyString
  end.

(** [\s+]: at least one white-space character, then as many as follow. *)
Definition skip_spaces1 (s : string) : option string :=
  match s with
  | String c s' => if is_space c then Some (lstrip_space s') else None
  | EmptyString => None
  end.

Definition month_names : list string :=
  ["january"; "february"; "march"; "april"; "may"; "june"; "july";
   "august"; "september"; "october"; "november"; "december"].

Fixpoint match_month_from (k : nat) (names : list string) (s : string)
  : option (nat * string) :=
  match names with
  | [] => None
  | name :: names' =>
      if startswith_nocase name s
      then Some (k, str_drop (String.length name) s)
      else match_month_from (S k) names' s
  end.

Definition match_month (s : string) : option (nat * string) :=
  match_month_from 1 month_names s.

Definition parse_year (s : string) : option (nat * string) :=
  match s with
  | String a (String b (String c (String d rest))) =>
      if is_digit a && is_digit b && is_digit c && is_digit d
      then Some (1000 * digit_val a + 100 * digit_val b
                 + 10 * digit_val c + digit_val d, rest)
      else None
  | _ => None
  end.

Definition is_leap (y : nat) : bool :=
  (y mod 4 =? 0) && (negb (y mod 100 =? 0) || (y mod 400 =? 0)).

Definition days_in_month (y m : nat) : nat :=
  match m with
  | 2 => if is_leap y then 29 else 28
  | 4 | 6 | 9 | 11 => 30
  | _ => 31
  end.

Definition strptime_d_B_Y (data : string) : result date :=
  let mismatch := Raise (ValueError (TimeDataMismatch data)) in
  match parse_day data with
  | None => mismatch
  | Some (d, r1) =>
  match skip_spaces1 r1 with
  | None => mismatch
  | Some r2 =>
  match match_month r2 with
  | None => mismatch
  | Some (m, r3) =>
  match skip_spaces1 r3 with
  | None => mismatch
  | Some r4 =>
  match parse_year r4 with
  | None => mismatch
  | Some (y, r5) =>
      if str_truthy r5 then Raise (ValueError (UnconvertedData r5))
      else if y =? 0 then Raise (ValueError (YearOutOfRange y))
      else if d <=? days_in_month y m then Ok (mkdate y m d)
      else Raise (ValueError (DayOutOfRange d))
  end end end end end.

(** ** The enumerations

    [E(v)] looks a member up by its value and [E[n]] by its name; both
    raise when there is none. *)

Class PyEnum (E : Type) := {
  enum_cls : string;
  enum_members : list E;
  enum_value : E → string;
  enum_name : E → string
}.

(** [enum_call v]: the call [E(v)]. *)
Definition enum_call (E : Type) `{PyEnum E} (v : string) : result E :=
  match List.find (λ m, String.eqb (enum_value m) v) enum_members with
  | Some m => Ok m
  | None => Raise (ValueError (NotAValid v enum_cls))
  end.

(** [enum_getitem n]: the subscript [E[n]]. *)
Definition enum_getitem (E : Type) `{PyEnum E} (n : string) : result E :=
  match List.find (λ m, String.eqb (enum_name m) n) enum_members with
  | Some m => Ok m
  | None => Raise (KeyError n)
  end.

(** Types of companies, by the text the results page shows. *)
Module CompanyType.

Inductive t :=
| ASSURANCE_COMPANY
| CHARITABLE_INCORPORATED_ORGANISATION
| CONVERTED_CLOSED
| CREDIT_UNION_NORTHERN_IRELAND
| EUROPEAN_ECONOMIC_INTEREST_GROUPING
| EUROPEAN_PUBLIC_LIMITED_LIABILITY_COMPANY
| FURTHER_EDUCATION_OR_SIXTH_FORM_COLLEGE_CORPORATION
| INDUSTRIAL_AND_PROVIDENT_SOCIETY
| INVESTMENT_COMPANY_WITH_VARIABLE_CAPITAL
| LIMITED_LIABILITY_PARTNERSHIP
| LIMITED_PARTNERSHIP
| NORTHERN_IRELAND_COMPANY
| OLD_PUBLIC_COMPANY
| OVERSEAS_COMPANY
| OVERSEAS_ENTITY
| PRIVATE_LIMITED_BY_GUARANTEE_WITHOUT_SHARE_CAPITAL
| PRIVATE_LIMITED_COMPANY
| PRIVATE_LIMITED_COMPANY_BY_GUARANTEE_WITHOUT_SHARE_CAPITAL
| PRIVATE_LIMITED_COMPANY_EXEMPTION
| PRIVATE_UNLIMITED_COMPANY
| PRIVATE_UNLIMITED_COMPANY_WITHOUT_SHARE_CAPITAL
| PROTECTED_CELL_COMPANY
| PUBLIC_LIMITED_COMPANY
| REGISTERED_SOCIETY
| ROYAL_CHARTER_COMPANY
| SCOTTISH_CHARITABLE_INCORPORATED_ORGANISATION
| SCOTTISH_QUALIFYING_PARTNERSHIP
| UK_ESTABLISHMENT_COMPANY
| UNREGISTERED_COMPANY.

Definition members : list t :=
  [ASSURANCE_COMPANY; CHARITABLE_INCORPORATED_ORGANISATION;
   CONVERTED_CLOSED; CREDIT_UNION_NORTHERN_IRELAND;
   EUROPEAN_ECONOMIC_INTEREST_GROUPING;
   EUROPEAN_PUBLIC_LIMITED_LIABILITY_COMPANY;
   FURTHER_EDUCATION_OR_SIXTH_FORM_COLLEGE_CORPORATION;
   INDUSTRIAL_AND_PROVIDENT_SOCIETY;
   INVESTMENT_COMPANY_WITH_VARIABLE_CAPITAL; LIMITED_LIABILITY_PARTNERSHIP;
   LIMITED_PARTNERSHIP; NORTHERN_IRELAND_COMPANY; OLD_PUBLIC_COMPANY;
   OVERSEAS_COMPANY; OVERSEAS_ENTITY;
   PRIVATE_LIMITED_BY_GUARANTEE_WITHOUT_SHARE_CAPITAL;
   PRIVATE_LIMITED_COMPANY;
   PRIVATE_LIMITED_COMPANY_BY_GUARANTEE_WITHOUT_SHARE_CAPITAL;
   PRIVATE_LIMITED_COMPANY_EXEMPTION; PRIVATE_UNLIMITED_COMPANY;
   PRIVATE_UNLIMITED_COMPANY_WITHOUT_SHARE_CAPITAL; PROTECTED_CELL_COMPANY;
   PUBLIC_LIMITED_COMPANY; REGISTERED_SOCIETY; ROYAL_CHARTER_COMPANY;
   SCOTTISH_CHARITABLE_INCORPORATED_ORGANISATION;
   SCOTTISH_QUALIFYING_PARTNERSHIP; UK_ESTABLISHMENT_COMPANY;
   UNREGISTERED_COMPANY].

Definition value (m : t) : string :=
  match m with
  | ASSURANCE_COMPANY =>
      "Assurance company"
  | CHARITABLE_INCORPORATED_ORGANISATION =>
      "Charitable incorporated organisation"
  | CONVERTED_CLOSED =>
      "Converted / closed"
  | CREDIT_UNION_NORTHERN_IRELAND =>
      "Credit union (Northern Ireland)"
  | EUROPEAN_ECONOMIC_INTEREST_GROUPING =>
      "European Economic Interest Grouping (EEIG)"
  | EUROPEAN_PUBLIC_LIMITED_LIABILITY_COMPANY =>
      "European public limited liability company (SE)"
  | FURTHER_EDUCATION_OR_SIXTH_FORM_COLLEGE_CORPORATION =>
      "Further education or sixth form college corporation"
  | INDUSTRIAL_AND_PROVIDENT_SOCIETY =>
      "Industrial and Provident society"
  | INVESTMENT_COMPANY_WITH_VARIABLE_CAPITAL =>
      "Investment company with variable capital"
  | LIMITED_LIABILITY_PARTNERSHIP =>
      "Limited liability partnership"
  | LIMITED_PARTNERSHIP =>
      "Limited partnership"
  | NORTHERN_IRELAND_COMPANY =>
      "Northern Ireland company"
  | OLD_PUBLIC_COMPANY =>
      "Old public company"
  | OVERSEAS_COMPANY =>
      "Overseas company"
  | OVERSEAS_ENTITY =>
      "Overseas entity"
  | PRIVATE_LIMITED_BY_GUARANTEE_WITHOUT_SHARE_CAPITAL =>
      "Private limited by guarantee without share capital"
  | PRIVATE_LIMITED_COMPANY =>
      "Private limited company"
  | PRIVATE_LIMITED_COMPANY_BY_GUARANTEE_WITHOUT_SHARE_CAPITAL =>
      "Private Limited Company by guarantee without share capital, use of 'Limited' exemption"
  | PRIVATE_LIMITED_COMPANY_EXEMPTION =>
      "Private Limited Company, use of 'Limited' exemption"
  | PRIVATE_UNLIMITED_COMPANY =>
      "Private unlimited company"
  | PRIVATE_UNLIMITED_COMPANY_WITHOUT_SHARE_CAPITAL =>
      "Private unlimited company without share capital"
  | PROTECTED_CELL_COMPANY =>
      "Protected cell company"
  | PUBLIC_LIMITED_COMPANY =>
      "Public limited company"
  | REGISTERED_SOCIETY =>
      "Registered society"
  | ROYAL_CHARTER_COMPANY =>
      "Royal charter company"
  | SCOTTISH_CHARITABLE_INCORPORATED_ORGANISATION =>
      "Scottish charitable incorporated organisation"
  | SCOTTISH_QUALIFYING_PARTNERSHIP =>
      "Scottish qualifying partnership"
  | UK_ESTABLISHMENT_COMPANY =>
      "UK establishment company"
  | UNREGISTERED_COMPANY =>
      "Unregistered company"
  end.

Definition name (m : t) : string :=
  match m with
  | ASSURANCE_COMPANY =>
      "ASSURANCE_COMPANY"
  | CHARITABLE_INCORPORATED_ORGANISATION =>
      "CHARITABLE_INCORPORATED_ORGANISATION"
  | CONVERTED_CLOSED =>
      "CONVERTED_CLOSED"
  | CREDIT_UNION_NORTHERN_IRELAND =>
      "CREDIT_UNION_NORTHERN_IRELAND"
  | EUROPEAN_ECONOMIC_INTEREST_GROUPING =>
      "EUROPEAN_ECONOMIC_INTEREST_GROUPING"
  | EUROPEAN_PUBLIC_LIMITED_LIABILITY_COMPANY =>
      "EUROPEAN_PUBLIC_LIMITED_LIABILITY_COMPANY"
  | FURTHER_EDUCATION_OR_SIXTH_FORM_COLLEGE_CORPORATION =>
      "FURTHER_EDUCATION_OR_SIXTH_FORM_COLLEGE_CORPORATION"
  | INDUSTRIAL_AND_PROVIDENT_SOCIETY =>
      "INDUSTRIAL_AND_PROVIDENT_SOCIETY"
  | INVESTMENT_COMPANY_WITH_VARIABLE_CAPITAL =>
      "INVESTMENT_COMPANY_WITH_VARIABLE_CAPITAL"
  | LIMITED_LIABILITY_PARTNERSHIP =>
      "LIMITED_LIABILITY_PARTNERSHIP"
  | LIMITED_PARTNERSHIP =>
      "LIMITED_PARTNERSHIP"
  | NORTHERN_IRELAND_COMPANY =>
      "NORTHERN_IRELAND_COMPANY"
  | OLD_PUBLIC_COMPANY =>
      "OLD_PUBLIC_COMPANY"
  | OVERSEAS_COMPANY =>
      "OVERSEAS_COMPANY"
  | OVERSEAS_ENTITY =>
      "OVERSEAS_ENTITY"
  | PRIVATE_LIMITED_BY_GUARANTEE_WITHOUT_SHARE_CAPITAL =>
      "PRIVATE_LIMITED_BY_GUARANTEE_WITHOUT_SHARE_CAPITAL"
  | PRIVATE_LIMITED_COMPANY =>
      "PRIVATE_LIMITED_COMPANY"
  | PRIVATE_LIMITED_COMPANY_BY_GUARANTEE_WITHOUT_SHARE_CAPITAL =>
      "PRIVATE_LIMITED_COMPANY_BY_GUARANTEE_WITHOUT_SHARE_CAPITAL"
  | PRIVATE_LIMITED_COMPANY_EXEMPTION =>
      "PRIVATE_LIMITED_COMPANY_EXEMPTION"
  | PRIVATE_UNLIMITED_COMPANY =>
      "PRIVATE_UNLIMITED_COMPANY"
  | PRIVATE_UNLIMITED_COMPANY_WITHOUT_SHARE_CAPITAL =>
      "PRIVATE_UNLIMITED_COMPANY_WITHOUT_SHARE_CAPITAL"
  | PROTECTED_CELL_COMPANY =>
      "PROTECTED_CELL_COMPANY"
  | PUBLIC_LIMITED_COMPANY =>
      "PUBLIC_LIMITED_COMPANY"
  | REGISTERED_SOCIETY =>
      "REGISTERED_SOCIETY"
  | ROYAL_CHARTER_COMPANY =>
      "ROYAL_CHARTER_COMPANY"
  | SCOTTISH_CHARITABLE_INCORPORATED_ORGANISATION =>
      "SCOTTISH_CHARITABLE_INCORPORATED_ORGANISATION"
  | SCOTTISH_QUALIFYING_PARTNERSHIP =>
      "SCOTTISH_QUALIFYING_PARTNERSHIP"
  | UK_ESTABLISHMENT_COMPANY =>
      "UK_ESTABLISHMENT_COMPANY"
  | UNREGISTERED_COMPANY =>
      "UNREGISTERED_COMPANY"
  end.

End CompanyType.

#[export] Instance CompanyType_enum : PyEnum CompanyType.t := {|
  enum_cls := "CompanyType";
  enum_members := CompanyType.members;
  enum_value := CompanyType.value;
  enum_name := CompanyType.name
|}.

(** Sub types of companies. *)
Module CompanySubType.

Inductive t :=
| COMMUNITY_INTEREST_COMPANY
| PRIVATE_FUND_LIMITED_PARTNERSHIP.

Definition members : list t :=
  [COMMUNITY_INTEREST_COMPANY; PRIVATE_FUND_LIMITED_PARTNERSHIP].

Definition value (m : t) : string :=
  match m with
  | COMMUNITY_INTEREST_COMPANY =>
      "Community Interest Company (CIC)"
  | PRIVATE_FUND_LIMITED_PARTNERSHIP =>
      "Private Fund Limited Partnership (PFLP)"
  end.

Definition name (m : t) : string :=
  match m with
  | COMMUNITY_INTEREST_COMPANY =>
      "COMMUNITY_INTEREST_COMPANY"
  | PRIVATE_FUND_LIMITED_PARTNERSHIP =>
      "PRIVATE_FUND_LIMITED_PARTNERSHIP"
  end.

End CompanySubType.

#[export] Instance CompanySubType_enum : PyEnum CompanySubType.t := {|
  enum_cls := "CompanySubType";
  enum_members := CompanySubType.members;
  enum_value := CompanySubType.value;
  enum_name := CompanySubType.name
|}.

(** Status of a company, by the value sent in the search URL. *)
Module CompanyStatus.

Inductive t :=
| ACTIVE
| DISSOLVED
| OPEN
| CLOSED
| CONVERTED_CLOSED
| RECEIVERSHIP
| LIQUIDATION
| ADMINISTRATION
| INSOLVENCY_PROCEEDINGS
| VOLUNTARY_ARRAGEMENT.

Definition members : list t :=
  [ACTIVE; DISSOLVED; OPEN; CLOSED; CONVERTED_CLOSED; RECEIVERSHIP;
   LIQUIDATION; ADMINISTRATION; INSOLVENCY_PROCEEDINGS;
   VOLUNTARY_ARRAGEMENT].

Definition value (m : t) : string :=
  match m with
  | ACTIVE =>
      "active"
  | DISSOLVED =>
      "dissolved"
  | OPEN =>
      "open"
  | CLOSED =>
      "closed"
  | CONVERTED_CLOSED =>
      "converted-closed"
  | RECEIVERSHIP =>
      "receivership"
  | LIQUIDATION =>
      "liquidation"
  | ADMINISTRATION =>
      "administration"
  | INSOLVENCY_PROCEEDINGS =>
      "insolvency-proceedings"
  | VOLUNTARY_ARRAGEMENT =>
      "voluntary-arrangement"
  end.

Definition name (m : t) : string :=
  match m with
  | ACTIVE =>
      "ACTIVE"
  | DISSOLVED =>
      "DISSOLVED"
  | OPEN =>
      "OPEN"
  | CLOSED =>
      "CLOSED"
  | CONVERTED_CLOSED =>
      "CONVERTED_CLOSED"
  | RECEIVERSHIP =>
      "RECEIVERSHIP"
  | LIQUIDATION =>
      "LIQUIDATION"
  | ADMINISTRATION =>
      "ADMINISTRATION"
  | INSOLVENCY_PROCEEDINGS =>
      "INSOLVENCY_PROCEEDINGS"
  | VOLUNTARY_ARRAGEMENT =>
      "VOLUNTARY_ARRAGEMENT"
  end.

End CompanyStatus.

#[export] Instance CompanyStatus_enum : PyEnum CompanyStatus.t := {|
  enum_cls := "CompanyStatus";
  enum_members := CompanyStatus.members;
  enum_value := CompanyStatus.value;
  enum_name := CompanyStatus.name
|}.

(** ** The data classes *)

Record IndustryCode := mkIndustryCode {
  code : string;
  description : string
}.

Record PreviousCompanyName := mkPreviousCompanyName {
  name : string;
  start_period : date;
  end_period : date
}.

Record Company := mkCompany {
  primary_name : string;
  local_registration_number : string;
  registered_office_address : string;
  status : CompanyStatus.t;
  company_type : CompanyType.t;
  company_sub_type : option CompanySubType.t;
  incorporation_date : option date;
  dissolved_date : option date;
  next_statement_date : option date;
  last_statement_date : option date;
  next_accounts_date : option date;
  last_accounts_date : option date;
  industry_codes : option (list IndustryCode);
  previous_company_names : option (list PreviousCompanyName)
}.

(** ** Parsed pages

    A page is kept as what the program reads from it.  A results row
    ([tr] of class [govuk-table__row]) has the text of its first
    [govuk-link] anchor and, for its first [govuk-list], the texts of
    the [li] children in order; [None] stands for [find] returning
    [None].  A row of the SIC page is the list of its [td] texts. *)

Record result_row := mkRow {
  a_data : option string;
  ul_data : option (list string)
}.

Record soup := mkSoup {
  findAll_tr : list (list string);
  findAll_tr_govuk_table_row : list result_row
}.

(** [li_text ul n]: [ul.select("li:nth-child(n)")[0].text]. *)
Definition li_text (ul : option (list string)) (n : nat) : result string :=
  match ul with
  | None => Raise (AttributeError "select")
  | Some lis =>
      getitem (match lis !! (n - 1) with Some t => [t] | None => [] end) 0
  end.

(** [a_text a]: [a.text]. *)
Definition a_text (a : option string) : result string :=
  match a with
  | None => Raise (AttributeError "text")
  | Some t => Ok t
  end.

(** ** The SIC table: lines 160-166 *)

Fixpoint sic_loop (trs : list (list string))
    (sic_code_list sic_desc_list : list string)
  : result (list string * list string) :=
  match trs with
  | [] => Ok (sic_code_list, sic_desc_list)
  | td_data :: trs' =>
      match td_data with
      | _ :: _ =>
          c ← getitem td_data 0;
          let sic_code_list := sic_code_list ++ [c] in
          d ← getitem td_data 1;
          let sic_desc_list := sic_desc_list ++ [d] in
          sic_loop trs' sic_code_list sic_desc_list
      | [] => sic_loop trs' sic_code_list sic_desc_list
      end
  end.

Definition load_industry_codes (soup1 : soup)
  : result (list string * list string) :=
  sic_loop (findAll_tr soup1) [] [].

(** ** One results row: lines 184-236 *)

Section Row.

Variable registration_number : option string.
Variable status_arg : CompanyStatus.t.
Variables sic_code_list sic_desc_list : list string.

(** Line 184. *)
Definition row_registration_number (ul : option (list string))
  : result string :=
  t ← li_text ul 3;
  parts ← str_split t " - ";
  getitem parts 0.

(** The test of lines 186-190:
    [registration_number is not None and registration_number in
    local_registration_number or registration_number is None]. *)
Definition row_selected (local_registration_number : string) : bool :=
  (match registration_number with
   | Some q => str_in q local_registration_number
   | None => false
   end)
  || (match registration_number with None => true | Some _ => false end).

(** Line 191. *)
Definition row_primary_name (a : option string) : result string :=
  t ← a_text a;
  parts ← str_split t "(";
  getitem parts 0.

(** Lines 193-194. *)
Definition row_company_type (ul : option (list string))
  : result CompanyType.t :=
  t ← li_text ul 1;
  m ← enum_call CompanyType.t t;
  let company_type_name := enum_name m in
  enum_getitem CompanyType.t company_type_name.

(** Lines 196-200. *)
Definition row_company_sub_type (ul : option (list string))
  : result (option CompanySubType.t) :=
  t ← li_text ul 2;
  if str_truthy t then
    t' ← li_text ul 2;
    m ← enum_call CompanySubType.t t';
    let company_sub_type_name := enum_name m in
    Some <$> enum_getitem CompanySubType.t company_sub_type_name
  else Ok None.

(** Lines 202-207. *)
Definition row_incorporation_date (ul : option (list string))
  : result (option date) :=
  t ← li_text ul 3;
  if str_in " on " t then
    t' ← li_text ul 3;
    parts ← str_split t' " on ";
    data ← getitem parts 1;
    Some <$> strptime_d_B_Y data
  else Ok None.

(** Lines 209-214. *)
Definition row_dissolved_date (ul : option (list string))
  : result (option date) :=
  t ← li_text ul 4;
  if str_in " on " t then
    t' ← li_text ul 4;
    parts ← str_split t' " on ";
    data ← getitem parts 1;
    Some <$> strptime_d_B_Y data
  else Ok None.

(** Line 216. *)
Definition row_registered_office_address (ul : option (list string))
  : result string :=
  li_text ul 5.

(** Lines 222-225: the description of one code. *)
Definition sic_description (sic_code : string) : result string :=
  if list_in sic_code sic_code_list then
    id ← list_index sic_code_list sic_code;
    getitem sic_desc_list id
  else Ok "".

(** Lines 221-228: the loop over the codes of a row. *)
Fixpoint industry_codes_loop (sic_codes : list string)
    (industry_codes : list IndustryCode) : result (list IndustryCode) :=
  match sic_codes with
  | [] => Ok industry_codes
  | sic_code :: sic_codes' =>
      desc ← sic_description sic_code;
      let industry_code := mkIndustryCode sic_code desc in
      industry_codes_loop sic_codes' (industry_codes ++ [industry_code])
  end.

(** Lines 218-232. *)
Definition row_industry_codes (ul : option (list string))
  : result (option (list IndustryCode)) :=
  t ← li_text ul 6;
  if str_truthy t then
    t' ← li_text ul 6;
    parts ← str_split t' " - ";
    codes_text ← getitem parts 1;
    sic_codes ← str_split codes_text ", ";
    Some <$> industry_codes_loop sic_codes []
  else Ok None.

(** The body of the loop over the rows: the list of companies after
    the row. *)
Definition row_body (companies : list Company) (tr_data : result_row)
  : result (list Company) :=
  let a := a_data tr_data in
  let ul := ul_data tr_data in
  local_registration_number ← row_registration_number ul;
  if row_selected local_registration_number then
    primary_name ← row_primary_name a;
    company_type ← row_company_type ul;
    company_sub_type ← row_company_sub_type ul;
    incorporation_date ← row_incorporation_date ul;
    dissolved_date ← row_dissolved_date ul;
    registered_office_address ← row_registered_office_address ul;
    industry_codes ← row_industry_codes ul;
    Ok (companies ++
        [mkCompany primary_name local_registration_number
           registered_office_address status_arg company_type
           company_sub_type incorporation_date dissolved_date
           None None None None industry_codes None])
  else Ok companies.

Fixpoint rows_loop (rows : list result_row) (companies : list Company)
  : result (list Company) :=
  match rows with
  | [] => Ok companies
  | tr_data :: rows' =>
      companies' ← row_body companies tr_data;
      rows_loop rows' companies'
  end.

End Row.

(** ** [search_companies]: lines 132-238 *)

Definition search_url : string :=
  "https://find-and-update.company-information.service.gov.uk/advanced-search/get-results?companyNameIncludes=".

Definition sic_url : string := "https://resources.companieshouse.gov.uk/sic/".

(** The URL of line 142-147, for a status that is not [None]. *)
Definition build_url (name : option string) (status : CompanyStatus.t)
  : string :=
  let url := search_url in
  let url :=
    match name with
    | Some n => if str_truthy n then url +:+ str_replace_char n " " "+" else url
    | None => url
    end in
  url +:+ "&status=" +:+ enum_value status.

(** [search_companies requests_get name registration_number status]:
    the URLs fetched, in order, and the outcome.  [requests_get] is the
    fetch followed by the HTML parse; [status] is [None] when the
    caller passed [None]. *)
Definition search_companies (requests_get : string → soup)
    (name registration_number : option string)
    (status : option CompanyStatus.t)
  : list string * result (list Company) :=
  let companies := [] in
  match status with
  | None => ([], Raise (AttributeError "value"))
  | Some st =>
      let url := build_url name st in
      let soup0 := requests_get url in
      let soup1 := requests_get sic_url in
      ([url; sic_url],
       '(sic_code_list, sic_desc_list) ← load_industry_codes soup1;
       rows_loop registration_number st sic_code_list sic_desc_list
         (findAll_tr_govuk_table_row soup0) companies)
  end.

(** A call site: an argument left out takes the default of the
    signature, [None] for the two texts and [ACTIVE] for the status. *)
Definition call_search_companies (requests_get : string → soup)
    (name registration_number : option (option string))
    (status : option (option CompanyStatus.t))
  : list string * result (list Company) :=
  search_companies requests_get
    (default None name) (default None registration_number)
    (default (Some CompanyStatus.ACTIVE) status).

(** The row of the comment at lines 173-182 and a two-line SIC table. *)
Definition sample_row : result_row :=
  mkRow (Some "ATRADIUS EXAMPLE C.I.C. (dissolved)")
    (Some ["Private limited by guarantee without share capital";
           "Community Interest Company (CIC)";
           "07850377 - Incorporated on 16 November 2011";
           "Dissolved on 11 September 2018";
           "12 New Street, Huddersfield, England HD1 2AR";
           "SIC codes - 78109, 88100"]).

Definition sample_web (url : string) : soup :=
  if String.eqb url sic_url
  then mkSoup [["Code"; "Description"]; []; ["78109"; "Other activities of employment placement agencies"]] []
  else mkSoup [] [sample_row].


(** ** Notions used to state the properties *)

(** [str_before sep s]: [s] up to the leftmost [sep]; all of [s] when
    [sep] does not occur. *)
Definition str_before (sep s : string) : string :=
  match str_cut sep s with
  | Some (before, _) => before
  | None => s
  end.

(** [take_until c s]: the characters of [s] in front of the first [c]. *)
Fixpoint take_until (c : ascii) (s : string) : string :=
  match s with
  | EmptyString => EmptyString
  | String a s' => if Ascii.eqb a c then EmptyString else String a (take_until c s')
  end.

(** The SIC table as a finite map: a code listed twice keeps the
    description of its first row. *)
Definition sic_map (sic_code_list sic_desc_list : list string)
  : gmap string string :=
  list_to_map (zip sic_code_list sic_desc_list).

(** The industry code of one token of the sixth item. *)
Definition industry_code_of (m : gmap string string) (token : string)
  : IndustryCode :=
  mkIndustryCode token (default "" (m !! token)).

(** The date clause of an item: the text between the first [" on "]
    and the next one is parsed; without [" on "] there is no date. *)
Definition on_date (t : string) : result (option date) :=
  match str_cut " on " t with
  | Some (_, rest) => Some <$> strptime_d_B_Y (str_before " on " rest)
  | None => Ok None
  end.

(** The rows of the SIC page that have cells, and a cell of a row. *)
Definition sic_rows (trs : list (list string)) : list (list string) :=
  List.filter (λ td, match td with [] => false | _ => true end) trs.

Definition cell (i : nat) (td : list string) : string := default "" (td !! i).

(** The industry codes of a sixth item: none for an empty text;
    otherwise one per piece, cut at [", "], of the text between the
    first [" - "] and the next one. *)
Definition industry_codes_of_text (m : gmap string string) (t : string)
  : result (option (list IndustryCode)) :=
  if str_truthy t then
    match str_cut " - " t with
    | Some (_, rest) =>
        Ok (Some (industry_code_of m <$> str_pieces ", " (str_before " - " rest)))
    | None => Raise IndexError
    end
  else Ok None.

(** The company of a selected row: lines 191-236 without the list it
    is appended to. *)
Definition row_record (status_arg : CompanyStatus.t)
    (sic_code_list sic_desc_list : list string)
    (local_registration_number : string) (tr_data : result_row)
  : result Company :=
  let a := a_data tr_data in
  let ul := ul_data tr_data in
  primary_name ← row_primary_name a;
  company_type ← row_company_type ul;
  company_sub_type ← row_company_sub_type ul;
  incorporation_date ← row_incorporation_date ul;
  dissolved_date ← row_dissolved_date ul;
  registered_office_address ← row_registered_office_address ul;
  industry_codes ← row_industry_codes sic_code_list sic_desc_list ul;
  Ok (mkCompany primary_name local_registration_number
        registered_office_address status_arg company_type
        company_sub_type incorporation_date dissolved_date
        None None None None industry_codes None).

(** A company with another status. *)
Definition with_status (st : CompanyStatus.t) (c : Company) : Company :=
  mkCompany (primary_name c) (local_registration_number c)
    (registered_office_address c) st (company_type c)
    (company_sub_type c) (incorporation_date c) (dissolved_date c)
    (next_statement_date c) (last_statement_date c)
    (next_accounts_date c) (last_accounts_date c)
    (industry_codes c) (previous_company_names c).

(** Whether the filter keeps a row: it does when the registration
    number contains the argument, and also when the number cannot be
    read, which fails the search with or without a filter. *)
Definition row_kept (q : string) (tr_data : result_row) : bool :=
  match row_registration_number (ul_data tr_data) with
  | Ok n => str_in q n
  | Raise _ => true
  end.

(** ** The specification's reading of three steps

    Named after the wording they follow; the program has no trimming
    step, and it reads the sixth item and the SIC rows differently. *)

Fixpoint rstrip_space (s : string) : string :=
  match s with
  | EmptyString => EmptyString
  | String c s' =>
      match rstrip_space s' with
      | EmptyString => if is_space c then EmptyString else String c EmptyString
      | r => String c r
      end
  end.

(** "trimmed": without the white space at either end. *)
Definition spec_trim (s : string) : string := rstrip_space (lstrip_space s).

(** "text before the first ( in the link text, trimmed". *)
Definition spec_primary_name (link_text : string) : string :=
  spec_trim (take_until "(" link_text).

(** "the text after the first [sep]". *)
Definition spec_text_after_first (sep s : string) : string :=
  match str_cut sep s with
  | Some (_, after) => after
  | None => EmptyString
  end.

(** "if non-empty, split the text after the first " - " on ", "; one
    IndustryCode per token; if empty, null". *)
Definition spec_industry_codes (m : gmap string string) (t : string)
  : option (list IndustryCode) :=
  if str_truthy t
  then Some (industry_code_of m <$> str_pieces ", " (spec_text_after_first " - " t))
  else None.

(** "every table row with at least two cell values". *)
Definition spec_sic_rows (trs : list (list string)) : list (list string) :=
  List.filter (λ td, 2 <=? length td) trs.

(** ** Pages used as examples *)

(** The web with one results page and one SIC page. *)
Definition web_of (rows : list result_row) (trs : list (list string))
    (url : string) : soup :=
  if String.eqb url sic_url then mkSoup trs [] else mkSoup [] rows.

(** A row whose link text and third item start with their separators. *)
Definition nameless_row : result_row :=
  mkRow (Some "(dissolved)")
    (Some ["Private limited company"; "";
           " - Incorporated on 16 November 2011"; ""; ""; ""]).

Definition foo_row : result_row :=
  mkRow (Some "Foo Ltd (dissolved)")
    (Some ["Private limited company"; "";
           "0780123 - Incorporated on 16 November 2011"; ""; ""; ""]).

(** A row of an unlisted type whose number is "070001". *)
Definition unlisted_type_row : result_row :=
  mkRow (Some "Bar Trust")
    (Some ["Charity"; ""; "070001 - Incorporated on 1 May 2020"; ""; ""; ""]).


(** A row with a malformed date whose number is "070001". *)
Definition bad_date_row : result_row :=
  mkRow (Some "Baz Ltd")
    (Some ["Private limited company"; "";
           "070001 - Incorporated on 31 June 2020"; ""; ""; ""]).

(** A row whose sixth item has two [" - "]. *)
Definition two_dash_row : result_row :=
  mkRow (Some "Qux Ltd")
    (Some ["Private limited company"; "";
           "0780123 - Incorporated on 16 November 2011"; ""; "";
           "SIC codes - 78109 - 88100"]).

(** A row whose sixth item has no [" - "]. *)
Definition no_dash_row : result_row :=
  mkRow (Some "Qux Ltd")
    (Some ["Private limited company"; "";
           "0780123 - Incorporated on 16 November 2011"; ""; "";
           "None supplied"]).

(** The web whose results pages keep only the rows the filter keeps. *)
Definition filter_rows (q : string) (web : string → soup) (url : string)
  : soup :=
  mkSoup (findAll_tr (web url))
    (List.filter (row_kept q) (findAll_tr_govuk_table_row (web url))).

(** ** Notions used to state the properties of the whole search *)

(** Whether a row gets past the test of lines 186-190.  A row whose
    number cannot be read counts: it ends the search on line 184. *)
Definition row_passes (reg : option string) (tr_data : result_row) : bool :=
  match row_registration_number (ul_data tr_data) with
  | Ok n => row_selected reg n
  | Raise _ => true
  end.

(** A row is read without an exception. *)
Definition row_reads (reg : option string) (st : CompanyStatus.t)
    (codes descs : list string) (tr_data : result_row) : Prop :=
  ∃ l, row_body reg st codes descs [] tr_data = Ok l.

(** What line 145 does to one character of the name. *)
Definition space_to_plus (c : ascii) : ascii :=
  if Ascii.eqb c " " then "+"%char else c.

(** The members of an enumeration are told apart by value and by name,
    and both lookups find exactly them. *)
Definition enum_faithful (E : Type) `{PyEnum E} : Prop :=
  (∀ v m, enum_call E v = Ok m ↔ enum_value m = v)
  ∧ (∀ n m, enum_getitem E n = Ok m ↔ enum_name m = n)
  ∧ (∀ m1 m2 : E, enum_value m1 = enum_value m2 → m1 = m2)
  ∧ (∀ m1 m2 : E, enum_name m1 = enum_name m2 → m1 = m2)
  ∧ (∀ v, (∀ m : E, enum_value m ≠ v) ↔
          enum_call E v = Raise (ValueError (NotAValid v enum_cls))).

(** A row that passes the test gives a company: the company of
    lines 191-236 for the number of line 184. *)
Definition row_yields (reg : option string) (st : CompanyStatus.t)
    (codes descs : list string) (tr_data : result_row) (c : Company)
  : Prop :=
  ∃ n, row_registration_number (ul_data tr_data) = Ok n
       ∧ row_selected reg n = true
       ∧ row_record st codes descs n tr_data = Ok c.

(** Lines 241-245: the call the script makes when it is run. *)
Definition main (requests_get : string → soup)
  : list string * result (list Company) :=
  call_search_companies requests_get (Some (Some "Atradius")) None None.
(** * Properties of the model *)

(** ** The model on the texts of the source comment *)

Example split_reg :
  str_split "07850377 - Incorporated on 16 November 2011" " - "
  = Ok ["07850377"; "Incorporated on 16 November 2011"].
Proof. reflexivity. Qed.

Example split_overlap : str_split "a - - b" " - " = Ok ["a"; "- b"].
Proof. reflexivity. Qed.

Example split_trailing : str_split "ab, " ", " = Ok ["ab"; ""].
Proof. reflexivity. Qed.

Example split_empty : str_split "" ", " = Ok [""].
Proof. reflexivity. Qed.

Example strptime_incorporated :
  strptime_d_B_Y "16 November 2011" = Ok (mkdate 2011 11 16).
Proof. reflexivity. Qed.

Example strptime_single_digit :
  strptime_d_B_Y "1 may 2020" = Ok (mkdate 2020 5 1).
Proof. reflexivity. Qed.

Example strptime_february :
  strptime_d_B_Y "30 February 2020" = Raise (ValueError (DayOutOfRange 30)).
Proof. reflexivity. Qed.

Example strptime_trailing :
  strptime_d_B_Y "16 November 2011 " = Raise (ValueError (UnconvertedData " ")).
Proof. reflexivity. Qed.

Example strptime_short_year :
  strptime_d_B_Y "16 November 211"
  = Raise (ValueError (TimeDataMismatch "16 November 211")).
Proof. reflexivity. Qed.

Example CompanyType_known :
  enum_call CompanyType.t "Private limited company"
  = Ok CompanyType.PRIVATE_LIMITED_COMPANY.
Proof. reflexivity. Qed.

Example CompanyType_unknown :
  enum_call CompanyType.t "private_limited_company"
  = Raise (ValueError (NotAValid "private_limited_company" "CompanyType")).
Proof. reflexivity. Qed.

Example sample_search :
  call_search_companies sample_web (Some (Some "Atradius")) None None
  = ([search_url +:+ "Atradius&status=active"; sic_url],
     Ok [mkCompany "ATRADIUS EXAMPLE C.I.C. " "07850377"
           "12 New Street, Huddersfield, England HD1 2AR"
           CompanyStatus.ACTIVE
           CompanyType.PRIVATE_LIMITED_BY_GUARANTEE_WITHOUT_SHARE_CAPITAL
           (Some CompanySubType.COMMUNITY_INTEREST_COMPANY)
           (Some (mkdate 2011 11 16)) (Some (mkdate 2018 9 11))
           None None None None
           (Some [mkIndustryCode "78109" "Other activities of employment placement agencies";
                  mkIndustryCode "88100" ""])
           None]).
Proof. vm_compute. reflexivity. Qed.

Example url_of_name :
  build_url (Some "Atradius Credit") CompanyStatus.ACTIVE
  = search_url +:+ "Atradius+Credit&status=active".
Proof. reflexivity. Qed.

Example url_without_name :
  build_url None CompanyStatus.VOLUNTARY_ARRAGEMENT
  = search_url +:+ "&status=voluntary-arrangement"
  ∧ build_url (Some "") CompanyStatus.ACTIVE = build_url None CompanyStatus.ACTIVE.
Proof. split; reflexivity. Qed.

Example filter_example :
  (search_companies (web_of [bad_date_row; foo_row] []) None (Some "078")
     (Some CompanyStatus.OPEN)).2
  = Ok [mkCompany "Foo Ltd " "0780123" "" CompanyStatus.OPEN
          CompanyType.PRIVATE_LIMITED_COMPANY None
          (Some (mkdate 2011 11 16)) None None None None None None None].
Proof. vm_compute. reflexivity. Qed.

(** ** Strings *)

Section StringFacts.

Implicit Types (s p sep a b : string) (c : ascii).

Lemma append_nil s : "" +:+ s = s.
Proof. done. Qed.

Lemma append_cons c a b : String c a +:+ b = String c (a +:+ b).
Proof. done. Qed.

Lemma length_append a b :
  String.length (a +:+ b) = String.length a + String.length b.
Proof.
  induction a as [|c a IH]; [done |].
  rewrite append_cons. simpl. by rewrite IH.
Qed.

Lemma startswith_split p s :
  startswith p s = true → s = p +:+ str_drop (String.length p) s.
Proof.
  revert s. induction p as [|c p IH]; intros [|d s]; simpl; try done.
  intros [Hc Hp]%andb_true_iff. apply Ascii.eqb_eq in Hc as ->.
  rewrite append_cons. f_equal. by apply IH.
Qed.

Lemma startswith_append p s : startswith p (p +:+ s) = true.
Proof.
  induction p as [|c p IH]; [done |].
  rewrite append_cons. simpl. by rewrite Ascii.eqb_refl, IH.
Qed.

Lemma startswith_nonempty c p : startswith (String c p) "" = false.
Proof. done. Qed.

(** A cut splits the text around one occurrence of the separator. *)
Lemma str_cut_Some sep s a b :
  str_cut sep s = Some (a, b) → s = a +:+ sep +:+ b.
Proof.
  revert a b. induction s as [|c s IH]; intros a b; simpl.
  - destruct (startswith sep "") eqn:E; [| done].
    intros [= <- <-]. by apply startswith_split in E.
  - destruct (startswith sep (String c s)) eqn:E.
    + intros [= <- <-]. by apply startswith_split in E.
    + destruct (str_cut sep s) as [[a' b']|] eqn:Hcut; [| done].
      intros [= <- <-]. rewrite append_cons. f_equal. by apply IH.
Qed.

Lemma str_cut_length sep s a b :
  str_cut sep s = Some (a, b) →
  String.length s = String.length a + String.length sep + String.length b.
Proof.
  intros ->%str_cut_Some. rewrite !length_append. lia.
Qed.

(** The cut is at the leftmost occurrence: the text in front is empty
    exactly when the text starts with the separator. *)
Lemma str_cut_startswith sep s :
  startswith sep s = true →
  str_cut sep s = Some ("", str_drop (String.length sep) s).
Proof. intros E. destruct s; simpl; by rewrite E. Qed.

Lemma str_cut_front_empty sep s b :
  str_cut sep s = Some ("", b) → startswith sep s = true.
Proof.
  destruct s as [|c s]; simpl.
  - by destruct (startswith sep "").
  - destruct (startswith sep (String c s)); [done |].
    by destruct (str_cut sep s) as [[a' b']|].
Qed.

(** [sep in s] holds exactly when there is a cut. *)
Lemma str_in_cut sep s :
  str_in sep s = match str_cut sep s with Some _ => true | None => false end.
Proof.
  induction s as [|c s IH]; simpl.
  - by destruct (startswith sep "").
  - destruct (startswith sep (String c s)); simpl; [done |].
    rewrite IH. by destruct (str_cut sep s) as [[a b]|].
Qed.

Lemma str_in_true sep s :
  str_in sep s = true ↔ ∃ a b, str_cut sep s = Some (a, b).
Proof.
  rewrite str_in_cut. destruct (str_cut sep s) as [[a b]|]; split.
  - eauto.
  - done.
  - done.
  - by intros (a & b & ?).
Qed.

Lemma str_in_false sep s : str_in sep s = false ↔ str_cut sep s = None.
Proof.
  rewrite str_in_cut. by destruct (str_cut sep s) as [[a b]|].
Qed.

(** Fuel beyond the length of the text changes nothing. *)
Lemma split_pieces_fuel c sep n m s :
  String.length s ≤ n → String.length s ≤ m →
  split_pieces n (String c sep) s = split_pieces m (String c sep) s.
Proof.
  revert m s. induction n as [|n IH]; intros m s Hn Hm.
  - destruct s; [| simpl in Hn; lia].
    destruct m; simpl; [done |]. done.
  - destruct m as [|m].
    + destruct s; [| simpl in Hm; lia]. done.
    + simpl. destruct (str_cut (String c sep) s) as [[a b]|] eqn:Hcut; [| done].
      f_equal. apply str_cut_length in Hcut. simpl in Hcut.
      apply IH; lia.
Qed.

(** The unfolding of [split]: cut once, split what follows. *)
Lemma str_pieces_unfold c sep s :
  str_pieces (String c sep) s =
  match str_cut (String c sep) s with
  | Some (a, b) => a :: str_pieces (String c sep) b
  | None => [s]
  end.
Proof.
  unfold str_pieces. destruct (String.length s) as [|n] eqn:Hlen.
  - destruct s; [done | done].
  - simpl. destruct (str_cut (String c sep) s) as [[a b]|] eqn:Hcut; [| done].
    f_equal. apply str_cut_length in Hcut. simpl in Hcut.
    apply split_pieces_fuel; lia.
Qed.

Lemma str_split_cons s c sep :
  str_split s (String c sep) = Ok (str_pieces (String c sep) s).
Proof. done. Qed.

(** [s.split(sep)[0]]. *)
Lemma str_pieces_first c sep s :
  str_pieces (String c sep) s !! 0 = Some (str_before (String c sep) s).
Proof.
  rewrite str_pieces_unfold. unfold str_before.
  by destruct (str_cut (String c sep) s) as [[a b]|].
Qed.

(** [s.split(sep)[1]]: there is one exactly when [sep] occurs, and it
    ends at the next occurrence. *)
Lemma str_pieces_second c sep s :
  str_pieces (String c sep) s !! 1 =
  match str_cut (String c sep) s with
  | Some (_, b) => Some (str_before (String c sep) b)
  | None => None
  end.
Proof.
  rewrite str_pieces_unfold.
  destruct (str_cut (String c sep) s) as [[a b]|]; [| done].
  simpl. apply str_pieces_first.
Qed.

Lemma str_pieces_nonempty c sep s : str_pieces (String c sep) s ≠ [].
Proof.
  rewrite str_pieces_unfold.
  by destruct (str_cut (String c sep) s) as [[a b]|].
Qed.

(** Joining the pieces with the separator gives the text back. *)
Lemma str_join_pieces c sep s :
  str_join (String c sep) (str_pieces (String c sep) s) = s.
Proof.
  remember (String.length s) as n eqn:Hn. revert s Hn.
  induction n as [n IH] using lt_wf_ind. intros s ->.
  rewrite str_pieces_unfold.
  destruct (str_cut (String c sep) s) as [[a b]|] eqn:Hcut; [| done].
  pose proof (str_cut_length _ _ _ _ Hcut) as Hlen. simpl in Hlen.
  pose proof (str_pieces_nonempty c sep b) as Hne.
  specialize (IH (String.length b) ltac:(lia) b eq_refl).
  destruct (str_pieces (String c sep) b) as [|x l] eqn:Hp; [done |].
  cbn [str_join]. cbn [str_join] in IH. rewrite IH.
  symmetry. by apply str_cut_Some.
Qed.

(** The first piece is empty exactly when the text is empty or starts
    with the separator. *)
Lemma str_before_empty c sep s :
  str_before (String c sep) s = "" ↔ s = "" ∨ startswith (String c sep) s = true.
Proof.
  unfold str_before. destruct (str_cut (String c sep) s) as [[a b]|] eqn:Hcut.
  - split.
    + intros ->. right. by apply str_cut_front_empty in Hcut.
    + intros [-> | E]; [done |].
      rewrite (str_cut_startswith _ _ E) in Hcut. by injection Hcut as <- _.
  - split; [by left |]. intros [-> | E]; [done |].
    by rewrite (str_cut_startswith _ _ E) in Hcut.
Qed.

(** With a one-character separator the first piece is the text in
    front of the first such character. *)
Lemma str_before_char c s : str_before (String c "") s = take_until c s.
Proof.
  unfold str_before. induction s as [|a s IH]; [done |].
  simpl. rewrite (Ascii.eqb_sym c a).
  destruct (Ascii.eqb a c); simpl; [done |].
  destruct (str_cut (String c "") s) as [[a' b']|]; by rewrite <-IH.
Qed.

Lemma take_until_prefix c s : ∃ r, s = take_until c s +:+ r.
Proof.
  induction s as [|a s [r IH]]; [by exists "" |].
  simpl. destruct (Ascii.eqb a c).
  - by exists (String a s).
  - exists r. rewrite append_cons. by rewrite <-IH.
Qed.

Lemma take_until_free c s : str_in (String c "") (take_until c s) = false.
Proof.
  induction s as [|a s IH]; [done |].
  simpl. destruct (Ascii.eqb a c) eqn:E; [done |].
  simpl. rewrite (Ascii.eqb_sym c a), E. simpl. exact IH.
Qed.

End StringFacts.

(** ** Exceptions and the enumerations *)

Lemma bind_Ok {A B} (f : A → result B) (a : A) : (Ok a ≫= f) = f a.
Proof. done. Qed.

Lemma bind_Raise {A B} (f : A → result B) (e : exn) :
  (Raise e ≫= f) = Raise e.
Proof. done. Qed.

Lemma fmap_Ok {A B} (f : A → B) (a : A) : f <$> Ok a = Ok (f a).
Proof. done. Qed.

Lemma fmap_Raise {A B} (f : A → B) (e : exn) :
  f <$> (Raise e : result A) = Raise e.
Proof. done. Qed.

Lemma fmap_Ok_inv {A B} (f : A → B) (m : result A) (b : B) :
  f <$> m = Ok b → ∃ a, m = Ok a ∧ b = f a.
Proof. destruct m as [a|e]; [| done]. intros [= <-]. eauto. Qed.

Lemma result_fmap_compose {A B C} (f : A → B) (g : B → C) (m : result A) :
  g <$> (f <$> m) = (g ∘ f) <$> m.
Proof. by destruct m. Qed.

Lemma result_fmap_id {A} (f : A → A) (m : result A) :
  (∀ a, f a = a) → f <$> m = m.
Proof. intros Hf. destruct m; [| done]. by rewrite fmap_Ok, Hf. Qed.

(** Push the outcomes already known through a sequence. *)
Ltac rsimpl :=
  repeat first
    [ rewrite bind_Ok | rewrite bind_Raise | rewrite fmap_Ok | rewrite fmap_Raise ].

Section EnumFacts.

Context {E : Type} `{PyEnum E}.

Lemma enum_call_Ok v m : enum_call E v = Ok m → enum_value m = v.
Proof.
  unfold enum_call.
  destruct (List.find _ enum_members) as [m'|] eqn:Hfind; [| done].
  intros [= <-]. apply find_some in Hfind as [_ Hv].
  by apply String.eqb_eq.
Qed.

(** A text that is the value of no member: the call raises, and the
    exception names the text and the class. *)
Lemma enum_call_unknown v :
  (∀ m, enum_value m ≠ v) →
  enum_call E v = Raise (ValueError (NotAValid v enum_cls)).
Proof.
  intros Hv. unfold enum_call.
  destruct (List.find _ enum_members) as [m|] eqn:Hfind; [| done].
  apply find_some in Hfind as [_ Hm]. apply String.eqb_eq in Hm.
  by destruct (Hv m).
Qed.

Lemma enum_call_cases v :
  (∃ m, enum_call E v = Ok m ∧ enum_value m = v)
  ∨ enum_call E v = Raise (ValueError (NotAValid v enum_cls)).
Proof.
  destruct (enum_call E v) as [m|e] eqn:Hc.
  - left. exists m. split; [done |]. by apply enum_call_Ok.
  - right. unfold enum_call in Hc.
    by destruct (List.find _ enum_members).
Qed.

End EnumFacts.

(** The failure of an enumeration call is a [ValueError], the class of
    the failures of the date parse; its payload tells it apart. *)
Lemma enum_failure_class v cls data :
  exn_class (ValueError (NotAValid v cls)) = "ValueError"
  ∧ exn_class (ValueError (TimeDataMismatch data)) = "ValueError"
  ∧ ValueError (NotAValid v cls) ≠ ValueError (TimeDataMismatch data).
Proof. done. Qed.

(** Looking a member up by its own name gives it back, so the
    subscripts of lines 194 and 198 never raise. *)
Lemma CompanyType_getitem_name (m : CompanyType.t) :
  enum_getitem CompanyType.t (enum_name m) = Ok m.
Proof. by destruct m. Qed.

Lemma CompanySubType_getitem_name (m : CompanySubType.t) :
  enum_getitem CompanySubType.t (enum_name m) = Ok m.
Proof. by destruct m. Qed.

Lemma CompanyType_call_value (m : CompanyType.t) :
  enum_call CompanyType.t (enum_value m) = Ok m.
Proof. by destruct m. Qed.

Lemma CompanySubType_call_value (m : CompanySubType.t) :
  enum_call CompanySubType.t (enum_value m) = Ok m.
Proof. by destruct m. Qed.

(** The empty text is no sub type. *)
Lemma CompanySubType_value_nonempty (m : CompanySubType.t) :
  enum_value m ≠ "".
Proof. by destruct m. Qed.

(** ** The fields of a row *)

Lemma li_text_Some lis n :
  li_text (Some lis) n =
  match lis !! (n - 1) with Some t => Ok t | None => Raise IndexError end.
Proof. unfold li_text. by destruct (lis !! (n - 1)). Qed.

Lemma li_text_Ok ul n t :
  li_text ul n = Ok t ↔ ∃ lis, ul = Some lis ∧ lis !! (n - 1) = Some t.
Proof.
  split.
  - destruct ul as [lis|]; [| done]. rewrite li_text_Some.
    destruct (lis !! (n - 1)) eqn:Hl; [| done]. intros [= <-]. eauto.
  - intros (lis & -> & Hl). by rewrite li_text_Some, Hl.
Qed.

Lemma getitem_Some {A} (l : list A) i x : l !! i = Some x → getitem l i = Ok x.
Proof. unfold getitem. by intros ->. Qed.

Lemma getitem_None {A} (l : list A) i :
  l !! i = None → getitem l i = Raise IndexError.
Proof. unfold getitem. by intros ->. Qed.

(** Line 184: the registration number is the third item up to its
    first [" - "]. *)
Lemma row_registration_number_eq ul :
  row_registration_number ul = str_before " - " <$> li_text ul 3.
Proof.
  unfold row_registration_number. destruct (li_text ul 3) as [t|e]; [| done].
  rewrite bind_Ok, str_split_cons, bind_Ok, fmap_Ok.
  apply getitem_Some, str_pieces_first.
Qed.

(** Line 191: the name is the link text up to its first parenthesis. *)
Lemma row_primary_name_eq a :
  row_primary_name a = take_until "(" <$> a_text a.
Proof.
  unfold row_primary_name. destruct (a_text a) as [t|e]; [| done].
  rewrite bind_Ok, str_split_cons, bind_Ok, fmap_Ok, <-str_before_char.
  apply getitem_Some, str_pieces_first.
Qed.

Lemma row_company_type_eq ul :
  row_company_type ul = li_text ul 1 ≫= enum_call CompanyType.t.
Proof.
  unfold row_company_type. destruct (li_text ul 1) as [t|e]; [| done].
  rewrite !bind_Ok. destruct (enum_call CompanyType.t t) as [m|e]; [| done].
  rewrite bind_Ok. apply CompanyType_getitem_name.
Qed.

Lemma row_company_sub_type_eq ul :
  row_company_sub_type ul =
  t ← li_text ul 2;
  if str_truthy t then Some <$> enum_call CompanySubType.t t else Ok None.
Proof.
  unfold row_company_sub_type. destruct (li_text ul 2) as [t|e] eqn:Ht; [| done].
  rewrite !bind_Ok. destruct (str_truthy t); [| done].
  destruct (enum_call CompanySubType.t t) as [m|e]; [| done].
  rewrite bind_Ok, fmap_Ok. by rewrite CompanySubType_getitem_name.
Qed.

(** The two date clauses are one rule, read on the third and on the
    fourth item. *)
Lemma date_clause_eq t :
  (if str_in " on " t then
     parts ← str_split t " on ";
     data ← getitem parts 1;
     Some <$> strptime_d_B_Y data
   else Ok None) = on_date t.
Proof.
  unfold on_date. rewrite str_in_cut, str_split_cons, bind_Ok.
  unfold getitem. rewrite str_pieces_second.
  by destruct (str_cut " on " t) as [[a b]|].
Qed.

Lemma row_incorporation_date_eq ul :
  row_incorporation_date ul = li_text ul 3 ≫= on_date.
Proof.
  unfold row_incorporation_date. destruct (li_text ul 3) as [t|e] eqn:Ht; [| done].
  rewrite !bind_Ok, <-date_clause_eq. by destruct (str_in " on " t).
Qed.

Lemma row_dissolved_date_eq ul :
  row_dissolved_date ul = li_text ul 4 ≫= on_date.
Proof.
  unfold row_dissolved_date. destruct (li_text ul 4) as [t|e] eqn:Ht; [| done].
  rewrite !bind_Ok, <-date_clause_eq. by destruct (str_in " on " t).
Qed.

Lemma on_date_absent t : str_in " on " t = false → on_date t = Ok None.
Proof. intros Hin%str_in_false. unfold on_date. by rewrite Hin. Qed.

(** ** The SIC table *)

Lemma sic_loop_Ok trs codes descs :
  Forall (λ td, length td ≠ 1) trs →
  sic_loop trs codes descs
  = Ok (codes ++ (cell 0 <$> sic_rows trs), descs ++ (cell 1 <$> sic_rows trs)).
Proof.
  revert codes descs.
  induction trs as [|td trs IH]; intros codes descs Hall; simpl.
  - by rewrite !app_nil_r.
  - apply Forall_cons in Hall as [Htd Hall].
    destruct td as [|c [|d td]]; [| done |].
    + by apply IH.
    + rewrite (getitem_Some _ 0 c), bind_Ok by done.
      rewrite (getitem_Some _ 1 d), bind_Ok by done.
      rewrite IH by done. simpl. unfold cell at 1 3. simpl.
      by rewrite <-!app_assoc.
Qed.

Lemma sic_loop_Raise trs codes descs :
  Exists (λ td, length td = 1) trs →
  sic_loop trs codes descs = Raise IndexError.
Proof.
  revert codes descs.
  induction trs as [|td trs IH]; intros codes descs Hex; simpl.
  - by apply Exists_nil in Hex.
  - destruct td as [|c [|d td]].
    + apply Exists_cons in Hex as [Hex | Hex]; [done |]. by apply IH.
    + done.
    + rewrite (getitem_Some _ 0 c), bind_Ok by done.
      rewrite (getitem_Some _ 1 d), bind_Ok by done.
      apply Exists_cons in Hex as [Hex | Hex]; [done |]. by apply IH.
Qed.

(** The two lists stay in step. *)
Lemma sic_loop_length trs codes descs codes' descs' :
  sic_loop trs codes descs = Ok (codes', descs') →
  length codes = length descs → length codes' = length descs'.
Proof.
  revert codes descs.
  induction trs as [|td trs IH]; intros codes descs; simpl.
  - by intros [= <- <-].
  - destruct td as [|c [|d td]]; [by apply IH | done |].
    rewrite (getitem_Some _ 0 c), bind_Ok by done.
    rewrite (getitem_Some _ 1 d), bind_Ok by done.
    intros Hloop Hlen. eapply IH; [done |].
    rewrite !length_app. simpl. lia.
Qed.

Lemma load_industry_codes_length soup1 codes descs :
  load_industry_codes soup1 = Ok (codes, descs) → length codes = length descs.
Proof. intros Hl. by eapply sic_loop_length. Qed.

Lemma list_in_cons x y l :
  list_in x (y :: l) = String.eqb x y || list_in x l.
Proof. done. Qed.

(** Lines 222-225 read the table as a map from code to description. *)
Lemma sic_description_lookup codes descs k :
  length codes = length descs →
  sic_description codes descs k
  = Ok (default "" (sic_map codes descs !! k)).
Proof.
  unfold sic_description, sic_map. revert descs.
  induction codes as [|c codes IH]; intros [|d descs] Hlen; try done.
  injection Hlen as Hlen. specialize (IH descs Hlen).
  rewrite list_in_cons. simpl list_index. simpl zip. simpl list_to_map.
  rewrite (String.eqb_sym k c).
  destruct (String.eqb_spec c k) as [-> | Hne]; simpl.
  - by rewrite lookup_insert_eq.
  - rewrite lookup_insert_ne by done.
    destruct (list_in k codes); [| done].
    destruct (list_index codes k) as [i|e]; [| done].
    by rewrite fmap_Ok, bind_Ok in *.
Qed.

Lemma industry_codes_loop_eq codes descs tokens acc :
  length codes = length descs →
  industry_codes_loop codes descs tokens acc
  = Ok (acc ++ (industry_code_of (sic_map codes descs) <$> tokens)).
Proof.
  intros Hlen. revert acc.
  induction tokens as [|tok tokens IH]; intros acc; simpl.
  - by rewrite app_nil_r.
  - rewrite sic_description_lookup, bind_Ok by done.
    rewrite IH. by rewrite <-app_assoc.
Qed.

Lemma row_industry_codes_eq codes descs ul :
  length codes = length descs →
  row_industry_codes codes descs ul
  = li_text ul 6 ≫= industry_codes_of_text (sic_map codes descs).
Proof.
  intros Hlen. unfold row_industry_codes, industry_codes_of_text.
  destruct (li_text ul 6) as [t|e] eqn:Ht; [| done].
  rewrite !bind_Ok. destruct (str_truthy t); [| done].
  rewrite str_split_cons, bind_Ok. unfold getitem at 1.
  rewrite str_pieces_second.
  destruct (str_cut " - " t) as [[a b]|]; [| done].
  rewrite bind_Ok, str_split_cons, bind_Ok.
  by rewrite industry_codes_loop_eq.
Qed.

(** ** Rows and the loop over them *)

Section RowFacts.

Context (st : CompanyStatus.t) (codes descs : list string).
Implicit Types (reg : option string) (r : result_row) (cs : list Company).

(** The body of the loop: read the number, test the filter, and only
    then read the other fields. *)
Lemma row_body_eq reg cs r :
  row_body reg st codes descs cs r =
  n ← row_registration_number (ul_data r);
  if row_selected reg n
  then (λ c, cs ++ [c]) <$> row_record st codes descs n r
  else Ok cs.
Proof.
  unfold row_body, row_record.
  destruct (row_registration_number (ul_data r)) as [n|e]; [| done].
  rewrite !bind_Ok. destruct (row_selected reg n); [| done].
  destruct (row_primary_name _); [| done].
  destruct (row_company_type _); [| done].
  destruct (row_company_sub_type _); [| done].
  destruct (row_incorporation_date _); [| done].
  destruct (row_dissolved_date _); [| done].
  destruct (row_registered_office_address _); [| done].
  by destruct (row_industry_codes _ _ _).
Qed.

Lemma row_selected_None n : row_selected None n = true.
Proof. done. Qed.

Lemma row_selected_Some q n : row_selected (Some q) n = str_in q n.
Proof. unfold row_selected. by rewrite orb_false_r. Qed.

Lemma row_body_app reg cs r :
  row_body reg st codes descs cs r
  = (cs ++.) <$> row_body reg st codes descs [] r.
Proof.
  rewrite !row_body_eq.
  destruct (row_registration_number (ul_data r)) as [n|e]; [| done].
  rsimpl. destruct (row_selected reg n).
  - by rewrite result_fmap_compose.
  - rsimpl. by rewrite app_nil_r.
Qed.

Lemma rows_loop_app reg rows cs :
  rows_loop reg st codes descs rows cs
  = (cs ++.) <$> rows_loop reg st codes descs rows [].
Proof.
  revert cs. induction rows as [|r rows IH]; intros cs.
  - simpl. by rewrite app_nil_r.
  - cbn [rows_loop]. rewrite row_body_app.
    destruct (row_body reg st codes descs [] r) as [l|e]; [| done].
    rsimpl. rewrite IH, (IH l), result_fmap_compose.
    destruct (rows_loop reg st codes descs rows []) as [l'|e]; [| done].
    rsimpl. simpl. by rewrite <-app_assoc.
Qed.

(** The fields of the company of a row. *)
Lemma row_record_Ok n r c :
  row_record st codes descs n r = Ok c →
  row_primary_name (a_data r) = Ok (primary_name c)
  ∧ local_registration_number c = n
  ∧ row_registered_office_address (ul_data r) = Ok (registered_office_address c)
  ∧ status c = st
  ∧ row_company_type (ul_data r) = Ok (company_type c)
  ∧ row_company_sub_type (ul_data r) = Ok (company_sub_type c)
  ∧ row_incorporation_date (ul_data r) = Ok (incorporation_date c)
  ∧ row_dissolved_date (ul_data r) = Ok (dissolved_date c)
  ∧ row_industry_codes codes descs (ul_data r) = Ok (industry_codes c).
Proof.
  unfold row_record.
  destruct (row_primary_name _); [| done].
  destruct (row_company_type _); [| done].
  destruct (row_company_sub_type _); [| done].
  destruct (row_incorporation_date _); [| done].
  destruct (row_dissolved_date _); [| done].
  destruct (row_registered_office_address _); [| done].
  destruct (row_industry_codes _ _ _); [| done].
  rewrite !bind_Ok. by intros [= <-].
Qed.

(** A row adds nothing or one company. *)
Lemma row_body_Ok reg cs cs' r :
  row_body reg st codes descs cs r = Ok cs' →
  ∃ n, row_registration_number (ul_data r) = Ok n
    ∧ (row_selected reg n = false ∧ cs' = cs
       ∨ row_selected reg n = true
         ∧ ∃ c, row_record st codes descs n r = Ok c ∧ cs' = cs ++ [c]).
Proof.
  rewrite row_body_eq.
  destruct (row_registration_number (ul_data r)) as [n|e]; [| done].
  rewrite bind_Ok. intros Hb. exists n. split; [done |].
  destruct (row_selected reg n).
  - right. split; [done |].
    apply fmap_Ok_inv in Hb as (c & Hc & ->). eauto.
  - left. by injection Hb as <-.
Qed.

End RowFacts.

(** The status of the call goes into the record unread. *)
Lemma row_record_status s1 s2 codes descs n r :
  row_record s1 codes descs n r
  = with_status s1 <$> row_record s2 codes descs n r.
Proof.
  unfold row_record.
  destruct (row_primary_name _); [| done].
  destruct (row_company_type _); [| done].
  destruct (row_company_sub_type _); [| done].
  destruct (row_incorporation_date _); [| done].
  destruct (row_dissolved_date _); [| done].
  destruct (row_registered_office_address _); [| done].
  by destruct (row_industry_codes _ _ _).
Qed.

Lemma rows_loop_status s1 s2 reg codes descs rows cs :
  rows_loop reg s1 codes descs rows (with_status s1 <$> cs)
  = fmap (M:=list) (with_status s1) <$> rows_loop reg s2 codes descs rows cs.
Proof.
  revert cs. induction rows as [|r rows IH]; intros cs; [done |].
  cbn [rows_loop]. rewrite !row_body_eq.
  destruct (row_registration_number (ul_data r)) as [n|e]; [| done].
  rsimpl. destruct (row_selected reg n).
  - rewrite (row_record_status s1 s2).
    destruct (row_record s2 codes descs n r) as [c|e]; [| done].
    rsimpl. rewrite <-IH. by rewrite fmap_app.
  - rsimpl. by rewrite IH.
Qed.

Lemma rows_loop_all_status reg st codes descs rows cs cs' :
  rows_loop reg st codes descs rows cs = Ok cs' →
  Forall (λ c, status c = st) cs → Forall (λ c, status c = st) cs'.
Proof.
  revert cs. induction rows as [|r rows IH]; intros cs.
  - by intros [= <-].
  - cbn [rows_loop].
    destruct (row_body reg st codes descs cs r) as [cs1|e] eqn:Hb; [| done].
    rsimpl. intros Hloop Hall. apply (IH cs1); [done |].
    apply row_body_Ok in Hb as (n & _ & [[_ ->] | [_ (c & Hc & ->)]]); [done |].
    apply Forall_app. split; [done |]. apply Forall_singleton.
    by apply row_record_Ok in Hc as (_ & _ & _ & ? & _).
Qed.

(** The filter on rows is a filter on the page. *)
Lemma rows_loop_filter q st codes descs rows cs :
  rows_loop (Some q) st codes descs rows cs
  = rows_loop None st codes descs (List.filter (row_kept q) rows) cs.
Proof.
  revert cs. induction rows as [|r rows IH]; intros cs; [done |].
  cbn [rows_loop List.filter]. unfold row_kept at 1. rewrite row_body_eq.
  destruct (row_registration_number (ul_data r)) as [n|e] eqn:Hn.
  - rsimpl. rewrite row_selected_Some. destruct (str_in q n).
    + cbn [rows_loop]. rewrite row_body_eq, Hn. rsimpl.
      rewrite row_selected_None.
      destruct (row_record st codes descs n r) as [c|e]; [| done].
      by rsimpl.
    + by rsimpl.
  - cbn [rows_loop]. by rewrite row_body_eq, Hn.
Qed.

(** On a page that parses without a filter, the filter keeps the
    companies whose number contains the argument. *)
Lemma rows_loop_filter_companies q st codes descs rows cs cs' :
  rows_loop None st codes descs rows cs = Ok cs' →
  rows_loop (Some q) st codes descs rows
    (List.filter (λ c, str_in q (local_registration_number c)) cs)
  = Ok (List.filter (λ c, str_in q (local_registration_number c)) cs').
Proof.
  revert cs. induction rows as [|r rows IH]; intros cs.
  - by intros [= <-].
  - cbn [rows_loop]. rewrite !row_body_eq.
    destruct (row_registration_number (ul_data r)) as [n|e]; [| done].
    rsimpl. rewrite row_selected_None, row_selected_Some.
    destruct (row_record st codes descs n r) as [c|e] eqn:Hc; [| done].
    rsimpl. intros Hloop%IH.
    rewrite List.filter_app in Hloop. cbn [List.filter] in Hloop.
    apply row_record_Ok in Hc as (_ & Hn & _). rewrite Hn in Hloop.
    destruct (str_in q n).
    + by rsimpl.
    + rsimpl. by rewrite app_nil_r in Hloop.
Qed.

(** Every company of the result comes from a row of the page. *)
Lemma rows_loop_Forall (P : Company → Prop) reg st codes descs rows cs cs' :
  rows_loop reg st codes descs rows cs = Ok cs' →
  Forall P cs →
  (∀ r n c, r ∈ rows → row_registration_number (ul_data r) = Ok n →
            row_selected reg n = true →
            row_record st codes descs n r = Ok c → P c) →
  Forall P cs'.
Proof.
  revert cs. induction rows as [|r rows IH]; intros cs.
  - by intros [= <-].
  - cbn [rows_loop].
    destruct (row_body reg st codes descs cs r) as [cs1|e] eqn:Hb; [| done].
    rsimpl. intros Hloop Hall HP. apply (IH cs1); [done | |].
    + apply row_body_Ok in Hb as (n & Hn & [[_ ->] | [Hsel (c & Hc & ->)]]);
        [done |].
      apply Forall_app. split; [done |]. apply Forall_singleton.
      apply (HP r n c); [apply list_elem_of_here | done ..].
    + intros r' n c Hr'. apply HP. by apply list_elem_of_further.
Qed.

(** The search, once the status is known not to be [None]. *)
Lemma search_companies_Some web name reg st :
  search_companies web name reg (Some st)
  = ([build_url name st; sic_url],
     '(codes, descs) ← load_industry_codes (web sic_url);
     rows_loop reg st codes descs
       (findAll_tr_govuk_table_row (web (build_url name st))) []).
Proof. done. Qed.

Lemma search_companies_Ok web name reg st cs :
  (search_companies web name reg (Some st)).2 = Ok cs →
  ∃ codes descs,
    load_industry_codes (web sic_url) = Ok (codes, descs)
    ∧ length codes = length descs
    ∧ rows_loop reg st codes descs
        (findAll_tr_govuk_table_row (web (build_url name st))) [] = Ok cs.
Proof.
  rewrite search_companies_Some. cbn [snd].
  destruct (load_industry_codes (web sic_url)) as [[codes descs]|e] eqn:Hl;
    [| done].
  rsimpl. intros Hloop. exists codes, descs.
  split; [done |]. split; [| done]. by eapply load_industry_codes_length.
Qed.

Lemma take_until_absent c s : str_in (String c "") s = false → take_until c s = s.
Proof.
  induction s as [|a s IH]; [done |].
  simpl. rewrite (Ascii.eqb_sym c a). destruct (Ascii.eqb a c); [done |].
  simpl. intros Hs. by rewrite IH.
Qed.

Lemma a_text_Ok a t : a_text a = Ok t ↔ a = Some t.
Proof. destruct a; simpl; split; congruence. Qed.

(** Where the name and the number of a company come from. *)
Lemma row_record_sources st codes descs n r c :
  row_registration_number (ul_data r) = Ok n →
  row_record st codes descs n r = Ok c →
  ∃ a lis t3,
    a_data r = Some a ∧ ul_data r = Some lis ∧ lis !! 2 = Some t3
    ∧ primary_name c = take_until "(" a
    ∧ local_registration_number c = str_before " - " t3.
Proof.
  intros Hn Hc.
  rewrite row_registration_number_eq in Hn.
  apply fmap_Ok_inv in Hn as (t3 & Ht3 & ->).
  apply li_text_Ok in Ht3 as (lis & Hul & Hli). cbn [Nat.sub] in Hli.
  apply row_record_Ok in Hc as (Hname & Hnum & _).
  rewrite row_primary_name_eq in Hname.
  apply fmap_Ok_inv in Hname as (a & Ha%a_text_Ok & Hpn).
  by exists a, lis, t3.
Qed.



(** In the map a code has the description of its first row. *)
Lemma sic_map_lookup codes descs k d :
  length codes = length descs →
  sic_map codes descs !! k = Some d
  ↔ ∃ i, codes !! i = Some k ∧ descs !! i = Some d
         ∧ ∀ j, j < i → codes !! j ≠ Some k.
Proof.
  unfold sic_map. revert descs.
  induction codes as [|c codes IH]; intros [|d' descs] Hlen; try done.
  - split; [done |]. by intros (i & ? & _).
  - injection Hlen as Hlen. simpl zip. simpl list_to_map.
    destruct (decide (c = k)) as [-> | Hne].
    + rewrite lookup_insert_eq. split.
      * intros [= ->]. exists 0. repeat split; [done .. |]. lia.
      * intros ([|i] & Hc & Hd & Hfirst).
        -- simpl in Hd. congruence.
        -- by destruct (Hfirst 0 ltac:(lia)).
    + rewrite lookup_insert_ne by done. rewrite (IH descs Hlen). split.
      * intros (i & Hc & Hd & Hfirst). exists (S i).
        repeat split; [done .. |].
        intros [|j] Hj; simpl; [congruence |]. apply Hfirst. lia.
      * intros ([|i] & Hc & Hd & Hfirst).
        -- simpl in Hc. congruence.
        -- exists i. repeat split; [done .. |].
           intros j Hj. apply (Hfirst (S j)). lia.
Qed.

Lemma sic_rows_spec trs :
  Forall (λ td, length td ≠ 1) trs → sic_rows trs = spec_sic_rows trs.
Proof.
  unfold sic_rows, spec_sic_rows.
  induction 1 as [|td trs Htd _ IH]; [done |].
  cbn [List.filter]. rewrite IH. by destruct td as [|c [|d td]].
Qed.

Lemma industry_code_of_code m (tokens : list string) :
  code <$> (industry_code_of m <$> tokens) = tokens.
Proof.
  induction tokens as [|tok tokens IH]; [done |].
  rewrite !fmap_cons, IH. done.
Qed.

Lemma str_before_absent sep s : str_in sep s = false → str_before sep s = s.
Proof. intros Hin%str_in_false. unfold str_before. by rewrite Hin. Qed.

Lemma str_truthy_false s : str_truthy s = false ↔ s = "".
Proof. by destruct s. Qed.

Lemma str_truthy_true s : s ≠ "" → str_truthy s = true.
Proof. by destruct s. Qed.

(** * Properties of the search *)

(** C1: for every row whose third list item is
    "07850377 - Incorporated on 16 November 2011", the registration
    number read at line 184 is "07850377", the text in front of the
    first " - ", and the incorporation date read at lines 202-207 is
    2011-11-16, parsed from the text after " on "; whenever the row
    yields a company, the company carries both. *)
Theorem C1_registration_number_and_incorporation_date
    (r : result_row) (lis : list string) :
  ul_data r = Some lis →
  lis !! 2 = Some "07850377 - Incorporated on 16 November 2011" →
  row_registration_number (ul_data r) = Ok "07850377"
  ∧ str_before " - " "07850377 - Incorporated on 16 November 2011" = "07850377"
  ∧ row_incorporation_date (ul_data r) = Ok (Some (mkdate 2011 11 16))
  ∧ spec_text_after_first " on " "07850377 - Incorporated on 16 November 2011"
    = "16 November 2011"
  ∧ ∀ reg st codes descs cs cs',
      row_body reg st codes descs cs r = Ok cs' →
      (row_selected reg "07850377" = false ∧ cs' = cs)
      ∨ (row_selected reg "07850377" = true
         ∧ ∃ c, cs' = cs ++ [c]
              ∧ local_registration_number c = "07850377"
              ∧ incorporation_date c = Some (mkdate 2011 11 16)).
Proof.
  intros Hul Hli.
  assert (Hn : row_registration_number (ul_data r) = Ok "07850377").
  { rewrite row_registration_number_eq, Hul, li_text_Some.
    cbn [Nat.sub]. by rewrite Hli. }
  assert (Hd : row_incorporation_date (ul_data r)
               = Ok (Some (mkdate 2011 11 16))).
  { rewrite row_incorporation_date_eq, Hul, li_text_Some.
    cbn [Nat.sub]. by rewrite Hli. }
  repeat split; [done .. |].
  intros reg st codes descs cs cs' Hb.
  apply row_body_Ok in Hb as (n & Hn' & Hcases).
  rewrite Hn in Hn'. injection Hn' as <-.
  destruct Hcases as [[Hsel ->] | [Hsel (c & Hc & ->)]]; [by left | right].
  split; [done |]. exists c. split; [done |].
  apply row_record_Ok in Hc as (_ & Hnum & _ & _ & _ & _ & Hinc & _).
  split; [done |]. rewrite Hd in Hinc. by injection Hinc as <-.
Qed.

Lemma C1_witness :
  row_registration_number (ul_data sample_row) = Ok "07850377"
  ∧ row_incorporation_date (ul_data sample_row) = Ok (Some (mkdate 2011 11 16))
  ∧ (search_companies sample_web None None (Some CompanyStatus.ACTIVE)).2
    = Ok [mkCompany "ATRADIUS EXAMPLE C.I.C. " "07850377"
            "12 New Street, Huddersfield, England HD1 2AR"
            CompanyStatus.ACTIVE
            CompanyType.PRIVATE_LIMITED_BY_GUARANTEE_WITHOUT_SHARE_CAPITAL
            (Some CompanySubType.COMMUNITY_INTEREST_COMPANY)
            (Some (mkdate 2011 11 16)) (Some (mkdate 2018 9 11))
            None None None None
            (Some [mkIndustryCode "78109" "Other activities of employment placement agencies";
                   mkIndustryCode "88100" ""])
            None].
Proof.
  destruct (C1_registration_number_and_incorporation_date sample_row
              _ eq_refl eq_refl) as (Hn & _ & Hd & _).
  split; [exact Hn |]. split; [exact Hd |]. vm_compute. reflexivity.
Defined.

(** C2, as stated, fails in its middle part: the filter is tested
    right after line 184, in front of the parsing of lines 191-232.
    The row "070001" of an unlisted type is dropped by the filter
    "078"; without the filter the search raises on its type, with the
    filter it returns the empty list and the failure never surfaces.
    The same holds for a row with a malformed date. *)
Lemma C2_counterexample :
  row_kept "078" unlisted_type_row = false
  ∧ (search_companies (web_of [unlisted_type_row] []) None None
       (Some CompanyStatus.ACTIVE)).2
    = Raise (ValueError (NotAValid "Charity" "CompanyType"))
  ∧ (search_companies (web_of [unlisted_type_row] []) None (Some "078")
       (Some CompanyStatus.ACTIVE)).2
    = Ok []
  ∧ (search_companies (web_of [bad_date_row] []) None None
       (Some CompanyStatus.ACTIVE)).2
    = Raise (ValueError (DayOutOfRange 31))
  ∧ (search_companies (web_of [bad_date_row] []) None (Some "078")
       (Some CompanyStatus.ACTIVE)).2
    = Ok [].
Proof. repeat split; vm_compute; reflexivity. Qed.

(** C2, amended: with a registration_number argument [q] the search
    drops exactly the rows whose number, read at line 184, does not
    contain [q] (case sensitive, anywhere in the number).  The test
    comes in front of the parsing of the other fields: a dropped row
    is not parsed and changes nothing, so the search is the unfiltered
    search of the page without the dropped rows; where the unfiltered
    search succeeds, the filtered one returns its companies whose
    number contains [q], in the same order. *)
Theorem C2_registration_number_filter
    (web : string → soup) (name : option string) (q : string)
    (st : CompanyStatus.t) :
  search_companies web name (Some q) (Some st)
  = search_companies (filter_rows q web) name None (Some st)
  ∧ (∀ r n codes descs cs,
       row_registration_number (ul_data r) = Ok n →
       row_body (Some q) st codes descs cs r
       = if str_in q n then row_body None st codes descs cs r else Ok cs)
  ∧ (∀ cs,
       (search_companies web name None (Some st)).2 = Ok cs →
       (search_companies web name (Some q) (Some st)).2
       = Ok (List.filter (λ c, str_in q (local_registration_number c)) cs)).
Proof.
  split; [| split].
  - rewrite !search_companies_Some. f_equal.
    change (load_industry_codes (filter_rows q web sic_url))
      with (load_industry_codes (web sic_url)).
    destruct (load_industry_codes (web sic_url)) as [[codes descs]|e]; [| done].
    rsimpl. unfold filter_rows. cbn [findAll_tr_govuk_table_row].
    apply rows_loop_filter.
  - intros r n codes descs cs Hn.
    rewrite !row_body_eq, Hn. rsimpl.
    by rewrite row_selected_Some, row_selected_None.
  - intros cs (codes & descs & Hl & _ & Hloop)%search_companies_Ok.
    rewrite search_companies_Some. cbn [snd]. rewrite Hl. rsimpl.
    by apply (rows_loop_filter_companies q) in Hloop.
Qed.

Lemma C2_witness :
  (search_companies (web_of [foo_row; bad_date_row; sample_row] []) None
     (Some "078") (Some CompanyStatus.ACTIVE)).2
  = (search_companies
       (filter_rows "078" (web_of [foo_row; bad_date_row; sample_row] []))
       None None (Some CompanyStatus.ACTIVE)).2
  ∧ length (List.filter (row_kept "078") [foo_row; bad_date_row; sample_row]) = 2.
Proof.
  split; [| reflexivity].
  exact (f_equal snd
           (proj1 (C2_registration_number_filter
                     (web_of [foo_row; bad_date_row; sample_row] [])
                     None "078" CompanyStatus.ACTIVE))).
Defined.

(** C3, as stated, fails: nothing checks the two texts.  A row whose
    link text starts with "(" and whose third item starts with " - "
    yields a company with an empty name and an empty number. *)
Lemma C3_counterexample :
  (λ cs : list Company,
     (primary_name <$> cs, local_registration_number <$> cs))
    <$> (search_companies (web_of [nameless_row] []) None None
           (Some CompanyStatus.ACTIVE)).2
  = Ok ([""], [""]).
Proof. vm_compute. reflexivity. Qed.

(** C3, amended: every company returned comes from a row of the page;
    its name is the link text up to the first "(" and its number is
    the third item up to the first " - ".  The name is empty exactly
    when the link text is empty or starts with "(", the number exactly
    when the third item is empty or starts with " - ". *)
Theorem C3_name_and_number
    (web : string → soup) (name reg : option string)
    (st : CompanyStatus.t) (cs : list Company) :
  (search_companies web name reg (Some st)).2 = Ok cs →
  Forall (λ c,
    ∃ r a lis t3,
      r ∈ findAll_tr_govuk_table_row (web (build_url name st))
      ∧ a_data r = Some a ∧ ul_data r = Some lis ∧ lis !! 2 = Some t3
      ∧ primary_name c = take_until "(" a
      ∧ local_registration_number c = str_before " - " t3
      ∧ (primary_name c = "" ↔ a = "" ∨ startswith "(" a = true)
      ∧ (local_registration_number c = ""
         ↔ t3 = "" ∨ startswith " - " t3 = true)) cs.
Proof.
  intros (codes & descs & _ & _ & Hloop)%search_companies_Ok.
  eapply rows_loop_Forall; [exact Hloop | done |].
  intros r n c Hr Hn _ Hc.
  destruct (row_record_sources _ _ _ _ _ _ Hn Hc)
    as (a & lis & t3 & Ha & Hul & Hli & Hname & Hnum).
  exists r, a, lis, t3. repeat (split; [done |]).
  split.
  - rewrite Hname, <-str_before_char. apply str_before_empty.
  - rewrite Hnum. apply str_before_empty.
Qed.

Lemma C3_witness :
  Forall (λ c,
    ∃ r a lis t3,
      r ∈ findAll_tr_govuk_table_row
            (web_of [nameless_row; foo_row] []
               (build_url None CompanyStatus.ACTIVE))
      ∧ a_data r = Some a ∧ ul_data r = Some lis ∧ lis !! 2 = Some t3
      ∧ primary_name c = take_until "(" a
      ∧ local_registration_number c = str_before " - " t3
      ∧ (primary_name c = "" ↔ a = "" ∨ startswith "(" a = true)
      ∧ (local_registration_number c = ""
         ↔ t3 = "" ∨ startswith " - " t3 = true))
    [mkCompany "" "" "" CompanyStatus.ACTIVE
       CompanyType.PRIVATE_LIMITED_COMPANY None
       (Some (mkdate 2011 11 16)) None None None None None None None;
     mkCompany "Foo Ltd " "0780123" "" CompanyStatus.ACTIVE
       CompanyType.PRIVATE_LIMITED_COMPANY None
       (Some (mkdate 2011 11 16)) None None None None None None None].
Proof.
  apply (C3_name_and_number (web_of [nameless_row; foo_row] []) None None
           CompanyStatus.ACTIVE).
  vm_compute. reflexivity.
Defined.

(** C4, as the specification words it, fails: the name is not trimmed.
    The link text "Foo Ltd (dissolved)" gives "Foo Ltd " with its
    trailing space, where the wording gives "Foo Ltd". *)
Lemma C4_counterexample :
  row_primary_name (a_data foo_row) = Ok "Foo Ltd "
  ∧ spec_primary_name "Foo Ltd (dissolved)" = "Foo Ltd"
  ∧ fmap (M:=list) primary_name
      <$> (search_companies (web_of [foo_row] []) None None
             (Some CompanyStatus.ACTIVE)).2
    = Ok ["Foo Ltd "].
Proof. repeat split; vm_compute; reflexivity. Qed.

(** C4, amended: the primary name of a row is its link text cut at the
    first "(", as it stands: a prefix of the link text with no "(" in
    it, all of the link text when that has no "(".  White space around
    it is kept. *)
Theorem C4_primary_name (r : result_row) (a : string) :
  a_data r = Some a →
  row_primary_name (a_data r) = Ok (take_until "(" a)
  ∧ (∃ rest, a = take_until "(" a +:+ rest)
  ∧ str_in "(" (take_until "(" a) = false
  ∧ (str_in "(" a = false → take_until "(" a = a)
  ∧ ∀ st codes descs n c,
      row_record st codes descs n r = Ok c →
      primary_name c = take_until "(" a.
Proof.
  intros Ha. rewrite Ha.
  split; [by rewrite row_primary_name_eq |].
  split; [apply take_until_prefix |].
  split; [apply take_until_free |].
  split; [apply take_until_absent |].
  intros st codes descs n c Hc.
  apply row_record_Ok in Hc as (Hname & _).
  rewrite Ha, row_primary_name_eq in Hname. simpl in Hname. congruence.
Qed.

Lemma C4_witness :
  row_primary_name (a_data foo_row) = Ok "Foo Ltd "
  ∧ row_primary_name (a_data unlisted_type_row) = Ok "Bar Trust".
Proof.
  split.
  - exact (proj1 (C4_primary_name foo_row "Foo Ltd (dissolved)" eq_refl)).
  - reflexivity.
Defined.

(** C5, as stated, fails on a sixth item with more or fewer than one
    " - ".  For "SIC codes - 78109 - 88100" the program takes the
    piece between the first and the second " - " and yields the one
    code "78109", where the text after the first " - " would be the
    one token "78109 - 88100"; for the non-empty "None supplied" it
    raises an IndexError and yields no industry codes at all. *)
Lemma C5_counterexample :
  row_industry_codes [] [] (ul_data two_dash_row)
  = Ok (Some [mkIndustryCode "78109" ""])
  ∧ spec_industry_codes (sic_map [] []) "SIC codes - 78109 - 88100"
    = Some [mkIndustryCode "78109 - 88100" ""]
  ∧ row_industry_codes [] [] (ul_data no_dash_row) = Raise IndexError
  ∧ (search_companies (web_of [no_dash_row] []) None None
       (Some CompanyStatus.ACTIVE)).2
    = Raise IndexError.
Proof. repeat split; vm_compute; reflexivity. Qed.

(** C5, amended: with the SIC table loaded, an empty sixth item gives
    null industry codes, never an empty list.  A non-empty one is cut
    at " - "; the piece after the first " - ", up to the next " - "
    if there is one, is cut at ", " and gives one IndustryCode per
    piece in page order, with the description of the code in the
    table and the empty text for a code that is not there.  With
    exactly one " - " that is the text after the first " - ", as the
    specification words it.  A non-empty item without " - " raises an
    IndexError. *)
Theorem C5_industry_codes
    (soup1 : soup) (codes descs : list string)
    (r : result_row) (lis : list string) (t6 : string) :
  load_industry_codes soup1 = Ok (codes, descs) →
  ul_data r = Some lis →
  lis !! 5 = Some t6 →
  row_industry_codes codes descs (ul_data r)
  = industry_codes_of_text (sic_map codes descs) t6
  ∧ (t6 = "" → row_industry_codes codes descs (ul_data r) = Ok None)
  ∧ (t6 ≠ "" → str_in " - " t6 = false →
     row_industry_codes codes descs (ul_data r) = Raise IndexError)
  ∧ (t6 ≠ "" →
     ∀ before rest, str_cut " - " t6 = Some (before, rest) →
       ∃ tokens l,
         tokens = str_pieces ", " (str_before " - " rest)
         ∧ l = industry_code_of (sic_map codes descs) <$> tokens
         ∧ row_industry_codes codes descs (ul_data r) = Ok (Some l)
         ∧ code <$> l = tokens
         ∧ l ≠ []
         ∧ (str_in " - " rest = false →
            Some l = spec_industry_codes (sic_map codes descs) t6))
  ∧ (∀ token,
       description (industry_code_of (sic_map codes descs) token)
       = default "" (sic_map codes descs !! token)
       ∧ sic_description codes descs token
         = Ok (description (industry_code_of (sic_map codes descs) token)))
  ∧ (∀ st n c,
       row_record st codes descs n r = Ok c →
       industry_codes_of_text (sic_map codes descs) t6 = Ok (industry_codes c)
       ∧ (t6 = "" ↔ industry_codes c = None)).
Proof.
  intros Hload Hul H6.
  pose proof (load_industry_codes_length _ _ _ Hload) as Hlen.
  assert (Heq : row_industry_codes codes descs (ul_data r)
                = industry_codes_of_text (sic_map codes descs) t6).
  { rewrite row_industry_codes_eq, Hul, li_text_Some by done.
    cbn [Nat.sub]. by rewrite H6. }
  rewrite Heq. split; [done |].
  split; [by intros -> |].
  split.
  { intros Hne Hin%str_in_false. unfold industry_codes_of_text.
    by rewrite (str_truthy_true _ Hne), Hin. }
  split.
  { intros Hne before rest Hcut. eexists _, _.
    split; [done |]. split; [done |].
    split.
    { unfold industry_codes_of_text.
      by rewrite (str_truthy_true _ Hne), Hcut. }
    split; [apply industry_code_of_code |].
    split.
    { intros Hnil%fmap_nil_inv. by apply str_pieces_nonempty in Hnil. }
    intros Hone. unfold spec_industry_codes, spec_text_after_first.
    by rewrite (str_truthy_true _ Hne), Hcut, (str_before_absent _ _ Hone). }
  split.
  { intros token. split; [done |]. by apply sic_description_lookup. }
  intros st n c Hc.
  apply row_record_Ok in Hc as (_ & _ & _ & _ & _ & _ & _ & _ & Hic).
  rewrite Heq in Hic. split; [done |].
  unfold industry_codes_of_text in Hic. destruct t6 as [|ch t6].
  - injection Hic as <-. done.
  - cbn [str_truthy] in Hic.
    destruct (str_cut " - " (String ch t6)) as [[a b]|]; [| done].
    injection Hic as <-. done.
Qed.

Lemma C5_witness :
  row_industry_codes ["78109"; "88100"]
    ["Other activities of employment placement agencies";
     "Social work activities without accommodation for the elderly and disabled"]
    (ul_data sample_row)
  = industry_codes_of_text
      (sic_map ["78109"; "88100"]
         ["Other activities of employment placement agencies";
          "Social work activities without accommodation for the elderly and disabled"])
      "SIC codes - 78109, 88100"
  ∧ industry_codes_of_text
      (sic_map ["78109"; "88100"]
         ["Other activities of employment placement agencies";
          "Social work activities without accommodation for the elderly and disabled"])
      "SIC codes - 78109, 88100"
    = Ok (Some [mkIndustryCode "78109" "Other activities of employment placement agencies";
                mkIndustryCode "88100" "Social work activities without accommodation for the elderly and disabled"]).
Proof.
  split; [| vm_compute; reflexivity].
  exact (proj1 (C5_industry_codes
    (mkSoup [["78109"; "Other activities of employment placement agencies"];
             ["88100"; "Social work activities without accommodation for the elderly and disabled"]] [])
    _ _ sample_row _ _ eq_refl eq_refl eq_refl)).
Defined.

(** C6, as stated, fails for a row with one cell: the guard of line
    164 lets it through, line 166 reads its second cell, and the
    search ends with an IndexError. *)
Lemma C6_counterexample :
  load_industry_codes
    (mkSoup [["01110"; "Growing of cereals"]; ["01120"]] [])
  = Raise IndexError
  ∧ spec_sic_rows [["01110"; "Growing of cereals"]; ["01120"]]
    = [["01110"; "Growing of cereals"]]
  ∧ (search_companies
       (web_of [sample_row] [["01110"; "Growing of cereals"]; ["01120"]])
       None None (Some CompanyStatus.ACTIVE)).2
    = Raise IndexError.
Proof. repeat split; vm_compute; reflexivity. Qed.

(** C6, amended: the table is read from every row of the reference
    page that has a cell, cell 0 as the code and cell 1 as the
    description; a row without cells adds nothing and is no failure.
    When no row has exactly one cell, these are the rows with at
    least two cells, and the load succeeds.  The two parallel lists
    it yields have the same length and are read as a map from code
    to description, in which a code listed more than once has the
    description of its first row; a code that is not listed has the
    empty description. *)
Theorem C6_reference_table (soup1 : soup) :
  Forall (λ td, length td ≠ 1) (findAll_tr soup1) →
  load_industry_codes soup1
  = Ok (cell 0 <$> sic_rows (findAll_tr soup1),
        cell 1 <$> sic_rows (findAll_tr soup1))
  ∧ sic_rows (findAll_tr soup1) = spec_sic_rows (findAll_tr soup1)
  ∧ ∀ codes descs,
      load_industry_codes soup1 = Ok (codes, descs) →
      length codes = length descs
      ∧ (∀ k, sic_description codes descs k
              = Ok (default "" (sic_map codes descs !! k)))
      ∧ (∀ k d, sic_map codes descs !! k = Some d
                ↔ ∃ i, codes !! i = Some k ∧ descs !! i = Some d
                       ∧ ∀ j, j < i → codes !! j ≠ Some k).
Proof.
  intros Hall.
  split; [by apply (sic_loop_Ok _ [] []) |].
  split; [by apply sic_rows_spec |].
  intros codes descs Hload.
  pose proof (load_industry_codes_length _ _ _ Hload) as Hlen.
  split; [done |].
  split; [intros k; by apply sic_description_lookup |].
  intros k d. by apply sic_map_lookup.
Qed.

Lemma C6_witness :
  load_industry_codes
    (mkSoup [["Code"; "Description"]; []; ["01110"; "Growing of cereals"];
             ["01110"; "Second entry"; "extra"]] [])
  = Ok (["Code"; "01110"; "01110"],
        ["Description"; "Growing of cereals"; "Second entry"])
  ∧ sic_description ["Code"; "01110"; "01110"]
      ["Description"; "Growing of cereals"; "Second entry"] "01110"
    = Ok "Growing of cereals".
Proof.
  split; [| reflexivity].
  refine (proj1 (C6_reference_table (mkSoup _ []) _)).
  repeat constructor; simpl; lia.
Defined.




(** C8: the dissolution date (fourth item) and the incorporation date
    (third item) follow one rule, [on_date]: with " on " in the text,
    the date that follows it is parsed, so "Dissolved on 11 September
    2018" gives 2018-09-11; without " on ", and so for an empty item,
    the date is null and nothing is raised.  A company of the row
    carries the two dates. *)
Theorem C8_date_clauses (r : result_row) (lis : list string) (t3 t4 : string) :
  ul_data r = Some lis →
  lis !! 2 = Some t3 →
  lis !! 3 = Some t4 →
  row_incorporation_date (ul_data r) = on_date t3
  ∧ row_dissolved_date (ul_data r) = on_date t4
  ∧ (∀ t, str_in " on " t = false → on_date t = Ok None)
  ∧ (∀ t, str_in " on " t = true →
          ∃ before rest,
            str_cut " on " t = Some (before, rest)
            ∧ on_date t = Some <$> strptime_d_B_Y (str_before " on " rest))
  ∧ on_date "" = Ok None
  ∧ on_date "Dissolved on 11 September 2018" = Ok (Some (mkdate 2018 9 11))
  ∧ ∀ st codes descs n c,
      row_record st codes descs n r = Ok c →
      on_date t3 = Ok (incorporation_date c)
      ∧ on_date t4 = Ok (dissolved_date c).
Proof.
  intros Hul H3 H4.
  assert (Hi : row_incorporation_date (ul_data r) = on_date t3).
  { rewrite row_incorporation_date_eq, Hul, li_text_Some.
    cbn [Nat.sub]. by rewrite H3. }
  assert (Hd : row_dissolved_date (ul_data r) = on_date t4).
  { rewrite row_dissolved_date_eq, Hul, li_text_Some.
    cbn [Nat.sub]. by rewrite H4. }
  split; [done |]. split; [done |].
  split; [apply on_date_absent |].
  split.
  { intros t (before & rest & Hcut)%str_in_true.
    exists before, rest. split; [done |]. unfold on_date. by rewrite Hcut. }
  split; [done |]. split; [done |].
  intros st codes descs n c Hc.
  apply row_record_Ok in Hc as (_ & _ & _ & _ & _ & _ & Hinc & Hdis & _).
  by rewrite <-Hi, <-Hd.
Qed.

Lemma C8_witness :
  row_incorporation_date (ul_data sample_row)
  = on_date "07850377 - Incorporated on 16 November 2011"
  ∧ row_dissolved_date (ul_data sample_row)
    = on_date "Dissolved on 11 September 2018"
  ∧ row_dissolved_date (ul_data foo_row) = Ok None.
Proof.
  destruct (C8_date_clauses sample_row _ _ _ eq_refl eq_refl eq_refl)
    as (Hi & Hd & _).
  split; [exact Hi |]. split; [exact Hd |]. reflexivity.
Defined.

(** C9: the status of every company returned is the status argument
    of the call, ACTIVE when the argument is left out; the page is
    never asked for a status.  Two calls that read the same results
    page with different status arguments end alike, and the companies
    they return differ in the status field and in no other. *)
Theorem C9_status_is_the_argument
    (web : string → soup) (name reg : option string)
    (s1 s2 : CompanyStatus.t) :
  findAll_tr_govuk_table_row (web (build_url name s1))
  = findAll_tr_govuk_table_row (web (build_url name s2)) →
  (∀ cs, (search_companies web name reg (Some s1)).2 = Ok cs →
         Forall (λ c, status c = s1) cs)
  ∧ (search_companies web name reg (Some s1)).2
    = fmap (M:=list) (with_status s1)
        <$> (search_companies web name reg (Some s2)).2
  ∧ (∀ c, status (with_status s1 c) = s1
          ∧ (s1 ≠ s2 → status c = s2 → status (with_status s1 c) ≠ status c)
          ∧ with_status (status c) (with_status s1 c) = c)
  ∧ call_search_companies web (Some name) (Some reg) None
    = search_companies web name reg (Some CompanyStatus.ACTIVE)
  ∧ (∀ cs, (call_search_companies web (Some name) (Some reg) None).2 = Ok cs →
           Forall (λ c, status c = CompanyStatus.ACTIVE) cs).
Proof.
  intros Hpage.
  assert (Hall : ∀ st cs,
            (search_companies web name reg (Some st)).2 = Ok cs →
            Forall (λ c, status c = st) cs).
  { intros st cs (codes & descs & _ & _ & Hloop)%search_companies_Ok.
    by eapply rows_loop_all_status. }
  split; [apply Hall |].
  split.
  { rewrite !search_companies_Some. cbn [snd]. rewrite Hpage.
    destruct (load_industry_codes (web sic_url)) as [[codes descs]|e]; [| done].
    rsimpl. apply (rows_loop_status s1 s2 reg codes descs _ []). }
  split.
  { intros c. split; [done |]. split; [| by destruct c].
    intros Hne Hc. cbn [with_status status]. congruence. }
  split; [done |]. apply Hall.
Qed.

Lemma C9_witness :
  (search_companies sample_web None None (Some CompanyStatus.DISSOLVED)).2
  = fmap (M:=list) (with_status CompanyStatus.DISSOLVED)
      <$> (search_companies sample_web None None (Some CompanyStatus.ACTIVE)).2
  ∧ fmap (M:=list) status
      <$> (search_companies sample_web None None (Some CompanyStatus.DISSOLVED)).2
    = Ok [CompanyStatus.DISSOLVED].
Proof.
  split; [| vm_compute; reflexivity].
  exact (proj1 (proj2 (C9_status_is_the_argument sample_web None None
                         CompanyStatus.DISSOLVED CompanyStatus.ACTIVE eq_refl))).
Defined.

(** C10: a call that passes [None] for the status fails on line 147,
    where the value of the status is read to build the URL: it raises
    an AttributeError with no page fetched and no row looked at,
    whatever the pages hold.  Leaving the argument out gives ACTIVE,
    and then, as with any status, both pages are fetched. *)
Theorem C10_status_None
    (web : string → soup) (name reg : option string) :
  search_companies web name reg None = ([], Raise (AttributeError "value"))
  ∧ call_search_companies web (Some name) (Some reg) (Some None)
    = ([], Raise (AttributeError "value"))
  ∧ call_search_companies web (Some name) (Some reg) None
    = search_companies web name reg (Some CompanyStatus.ACTIVE)
  ∧ ∀ st, (call_search_companies web (Some name) (Some reg) (Some (Some st))).1
          = [build_url name st; sic_url]
          ∧ (call_search_companies web (Some name) (Some reg) None).1
            = [build_url name CompanyStatus.ACTIVE; sic_url].
Proof. done. Qed.

(** * Further properties *)

(** ** The enumerations: lines 40-92 *)

Section EnumRoundTrip.

Context {E : Type} `{PyEnum E}.
Hypothesis call_value : ∀ m : E, enum_call E (enum_value m) = Ok m.
Hypothesis getitem_name : ∀ m : E, enum_getitem E (enum_name m) = Ok m.

Lemma enum_getitem_Ok n m : enum_getitem E n = Ok m → enum_name m = n.
Proof.
  unfold enum_getitem.
  destruct (List.find _ enum_members) as [m'|] eqn:Hfind; [| done].
  intros [= <-]. apply find_some in Hfind as [_ Hn].
  by apply String.eqb_eq.
Qed.

Lemma enum_faithful_of_round_trips : enum_faithful E.
Proof.
  split; [| split; [| split; [| split]]].
  - intros v m. split; [apply enum_call_Ok |]. intros <-. apply call_value.
  - intros n m. split; [apply enum_getitem_Ok |]. intros <-. apply getitem_name.
  - intros m1 m2 Hv. pose proof (call_value m1) as H1.
    rewrite Hv, call_value in H1. by injection H1.
  - intros m1 m2 Hn. pose proof (getitem_name m1) as H1.
    rewrite Hn, getitem_name in H1. by injection H1.
  - intros v. split; [apply enum_call_unknown |].
    intros Hr m <-. by rewrite call_value in Hr.
Qed.

End EnumRoundTrip.

Lemma CompanyStatus_call_value (m : CompanyStatus.t) :
  enum_call CompanyStatus.t (enum_value m) = Ok m.
Proof. by destruct m. Qed.

Lemma CompanyStatus_getitem_name (m : CompanyStatus.t) :
  enum_getitem CompanyStatus.t (enum_name m) = Ok m.
Proof. by destruct m. Qed.

(** X1: in each of the three enumerations no two members share a value
    or a name; the call [E(v)] gives the member whose value is [v] and
    raises the ValueError that names [v] and the class exactly when no
    member has that value; the subscript [E[n]] gives the member named
    [n]. *)
Theorem X1_enumerations_are_faithful :
  enum_faithful CompanyType.t
  ∧ enum_faithful CompanySubType.t
  ∧ enum_faithful CompanyStatus.t.
Proof.
  split; [| split]; apply enum_faithful_of_round_trips.
  - apply CompanyType_call_value.
  - apply CompanyType_getitem_name.
  - apply CompanySubType_call_value.
  - apply CompanySubType_getitem_name.
  - apply CompanyStatus_call_value.
  - apply CompanyStatus_getitem_name.
Qed.

(** ** The search URL: lines 142-147 *)

Lemma append_assoc (a b c : string) : (a +:+ b) +:+ c = a +:+ (b +:+ c).
Proof.
  induction a as [|x a IH]; [done |].
  rewrite !append_cons. by rewrite IH.
Qed.

Lemma append_inv_head (a x y : string) : a +:+ x = a +:+ y → x = y.
Proof.
  induction a as [|c a IH]; [done |].
  rewrite !append_cons. intros [= Heq]. by apply IH.
Qed.

Lemma append_empty_r (a : string) : a +:+ "" = a.
Proof. induction a as [|c a IH]; [done |]. by rewrite append_cons, IH. Qed.

Lemma str_replace_char_get (s : string) (i : nat) :
  String.get i (str_replace_char s " " "+")
  = space_to_plus <$> String.get i s.
Proof.
  revert i. induction s as [|c s IH]; intros i; [done |].
  destruct i as [|i]; simpl; [done |]. apply IH.
Qed.

Lemma str_replace_char_length (s : string) (a b : ascii) :
  String.length (str_replace_char s a b) = String.length s.
Proof. induction s as [|c s IH]; simpl; [done | by rewrite IH]. Qed.

Lemma str_replace_char_free (s : string) :
  str_in " " (str_replace_char s " " "+") = false.
Proof.
  induction s as [|c s IH]; [done |].
  cbn [str_replace_char str_in startswith]. rewrite IH, orb_false_r.
  destruct (Ascii.eqb c " ") eqn:Hc; [done |].
  by rewrite Ascii.eqb_sym, Hc.
Qed.

Lemma str_replace_char_absent (s : string) :
  str_in " " s = false → str_replace_char s " " "+" = s.
Proof.
  induction s as [|c s IH]; [done |].
  cbn [str_replace_char str_in startswith].
  rewrite (Ascii.eqb_sym " " c).
  destruct (Ascii.eqb c " "); [done |]. simpl. intros Hs. by rewrite IH.
Qed.

(** X2: the URL of the search is the fixed address followed by the
    name, in which every space has become a "+" and every other
    character stands as given, and by "&status=" with the value of the
    status.  The encoded name has the length of the name and no space
    in it; a name without spaces is sent unchanged; no name and the
    empty name give the same URL; and the URL tells the status, as no
    two statuses give the same URL for a name. *)
Theorem X2_search_url (name : string) (st : CompanyStatus.t) :
  build_url (Some name) st
  = search_url +:+ str_replace_char name " " "+" +:+ "&status=" +:+ enum_value st
  ∧ build_url None st = search_url +:+ "&status=" +:+ enum_value st
  ∧ build_url (Some "") st = build_url None st
  ∧ (∀ i, String.get i (str_replace_char name " " "+")
          = space_to_plus <$> String.get i name)
  ∧ String.length (str_replace_char name " " "+") = String.length name
  ∧ str_in " " (str_replace_char name " " "+") = false
  ∧ (str_in " " name = false → str_replace_char name " " "+" = name)
  ∧ (∀ n st', build_url n st = build_url n st' → st = st').
Proof.
  split.
  { unfold build_url. destruct name as [|c name]; [done |].
    cbn [str_truthy]. by rewrite append_assoc. }
  split; [done |]. split; [done |].
  split; [apply str_replace_char_get |].
  split; [apply str_replace_char_length |].
  split; [apply str_replace_char_free |].
  split; [apply str_replace_char_absent |].
  intros n st' Hurl. unfold build_url in Hurl.
  apply append_inv_head, append_inv_head in Hurl.
  destruct (enum_faithful_of_round_trips
              CompanyStatus_call_value CompanyStatus_getitem_name)
    as (_ & _ & Hinj & _).
  by apply Hinj.
Qed.

(** ** The loop over the rows: lines 168-238 *)

Section LoopFacts.

Context (reg : option string) (st : CompanyStatus.t) (codes descs : list string).

Lemma row_body_reads cs cs' r :
  row_body reg st codes descs cs r = Ok cs' → row_reads reg st codes descs r.
Proof.
  rewrite row_body_app. unfold row_reads.
  destruct (row_body reg st codes descs [] r) as [l|e]; [eauto | done].
Qed.

Lemma row_body_Raise_any cs cs' r e :
  row_body reg st codes descs cs r = Raise e →
  row_body reg st codes descs cs' r = Raise e.
Proof.
  rewrite (row_body_app _ _ _ _ cs), (row_body_app _ _ _ _ cs').
  by destruct (row_body reg st codes descs [] r).
Qed.

Lemma row_passes_false r :
  row_passes reg r = false →
  ∃ n, row_registration_number (ul_data r) = Ok n ∧ row_selected reg n = false.
Proof.
  unfold row_passes.
  destruct (row_registration_number (ul_data r)) as [n|e]; [eauto | done].
Qed.

(** A search that succeeds returns, in page order, the companies of the
    rows that pass the test, and the other way round. *)
Lemma rows_loop_Ok_iff rows acc cs :
  rows_loop reg st codes descs rows acc = Ok cs
  ↔ ∃ l, cs = acc ++ l
         ∧ Forall2 (row_yields reg st codes descs)
             (List.filter (row_passes reg) rows) l.
Proof.
  revert acc cs. induction rows as [|r rows IH]; intros acc cs.
  - cbn [rows_loop List.filter]. split.
    + intros [= <-]. exists []. by rewrite app_nil_r.
    + intros (l & -> & ->%Forall2_nil_inv_l). by rewrite app_nil_r.
  - cbn [rows_loop List.filter]. split.
    + destruct (row_body reg st codes descs acc r) as [acc1|e] eqn:Hb; [| done].
      rsimpl. intros (l & -> & Hl)%IH.
      apply row_body_Ok in Hb as (n & Hn & [[Hsel ->] | [Hsel (c & Hc & ->)]]).
      * exists l. split; [done |]. unfold row_passes. by rewrite Hn, Hsel.
      * exists (c :: l). rewrite <-app_assoc. split; [done |].
        unfold row_passes. rewrite Hn, Hsel. constructor; [| done].
        by exists n.
    + intros (l & -> & Hl).
      destruct (row_passes reg r) eqn:Hp.
      * apply Forall2_cons_inv_l in Hl as (c & l' & (n & Hn & Hsel & Hc) & Hl' & ->).
        rewrite row_body_eq, Hn. rsimpl. rewrite Hsel, Hc. rsimpl.
        apply IH. exists l'. by rewrite <-app_assoc.
      * apply row_passes_false in Hp as (n & Hn & Hsel).
        rewrite row_body_eq, Hn. rsimpl. rewrite Hsel. rsimpl.
        apply IH. by exists l.
Qed.

(** A search that fails raises what its first unreadable row raises;
    the rows after that row do not matter. *)
Lemma rows_loop_Raise_iff rows acc e :
  rows_loop reg st codes descs rows acc = Raise e
  ↔ ∃ rows1 r rows2,
      rows = rows1 ++ r :: rows2
      ∧ Forall (row_reads reg st codes descs) rows1
      ∧ row_body reg st codes descs [] r = Raise e.
Proof.
  revert acc. induction rows as [|r rows IH]; intros acc.
  - split; [done |]. intros (rows1 & r & rows2 & Heq & _).
    by destruct rows1.
  - cbn [rows_loop]. split.
    + destruct (row_body reg st codes descs acc r) as [acc1|e'] eqn:Hb.
      * rsimpl. intros (rows1 & r' & rows2 & -> & Hall & Hr)%IH.
        exists (r :: rows1), r', rows2. split; [done |].
        split; [| done]. constructor; [| done]. by eapply row_body_reads.
      * rsimpl. intros [= ->]. exists [], r, rows.
        split; [done |]. split; [done |]. by eapply row_body_Raise_any.
    + intros (rows1 & r' & rows2 & Heq & Hall & Hr).
      destruct rows1 as [|r1 rows1].
      * injection Heq as -> ->.
        by rewrite (row_body_Raise_any [] acc _ _ Hr).
      * injection Heq as -> ->.
        apply Forall_cons in Hall as [[l Hl] Hall].
        rewrite row_body_app, Hl. rsimpl.
        apply IH. by exists rows1, r', rows2.
Qed.

End LoopFacts.

Lemma length_filter_le {A} (f : A → bool) (l : list A) :
  length (List.filter f l) ≤ length l.
Proof.
  induction l as [|x l IH]; [done |].
  cbn [List.filter]. destruct (f x); simpl; lia.
Qed.

Lemma filter_all {A} (f : A → bool) (l : list A) :
  (∀ x, f x = true) → List.filter f l = l.
Proof.
  intros Hf. induction l as [|x l IH]; [done |].
  cbn [List.filter]. by rewrite Hf, IH.
Qed.

Lemma row_passes_None r : row_passes None r = true.
Proof.
  unfold row_passes. by destruct (row_registration_number (ul_data r)).
Qed.

(** X3: a search returns normally exactly when the SIC table loads
    and every row that passes the registration-number test gives a
    company; what it returns is the list of these companies in the
    order of the rows on the page, one per row.  So it has at most as
    many companies as the page has rows, and exactly as many when no
    registration number is given. *)
Theorem X3_result_follows_the_page
    (web : string → soup) (name reg : option string)
    (st : CompanyStatus.t) (cs : list Company) :
  ((search_companies web name reg (Some st)).2 = Ok cs
   ↔ ∃ codes descs,
       load_industry_codes (web sic_url) = Ok (codes, descs)
       ∧ Forall2 (row_yields reg st codes descs)
           (List.filter (row_passes reg)
              (findAll_tr_govuk_table_row (web (build_url name st)))) cs)
  ∧ ((search_companies web name reg (Some st)).2 = Ok cs →
     length cs ≤ length (findAll_tr_govuk_table_row (web (build_url name st)))
     ∧ (reg = None →
        length cs
        = length (findAll_tr_govuk_table_row (web (build_url name st))))).
Proof.
  assert (Hiff :
    (search_companies web name reg (Some st)).2 = Ok cs
    ↔ ∃ codes descs,
        load_industry_codes (web sic_url) = Ok (codes, descs)
        ∧ Forall2 (row_yields reg st codes descs)
            (List.filter (row_passes reg)
               (findAll_tr_govuk_table_row (web (build_url name st)))) cs).
  { rewrite search_companies_Some. cbn [snd]. split.
    - destruct (load_industry_codes (web sic_url)) as [[codes descs]|e]; [| done].
      rsimpl. intros (l & -> & Hl)%rows_loop_Ok_iff. by exists codes, descs.
    - intros (codes & descs & -> & Hl). rsimpl.
      apply rows_loop_Ok_iff. by exists cs. }
  split; [exact Hiff |].
  intros (codes & descs & _ & Hl)%Hiff.
  apply Forall2_length in Hl. rewrite <-Hl. split.
  - apply length_filter_le.
  - intros ->. rewrite filter_all; [done |]. apply row_passes_None.
Qed.

(** X4: a search raises exactly when the SIC table fails to load, and
    then with the exception of the load, or when a row cannot be read,
    and then with the exception of the first such row on the page: the
    rows in front of it were read, the rows behind it are not looked
    at, and no company of the page is returned. *)
Theorem X4_first_failure_ends_the_search
    (web : string → soup) (name reg : option string)
    (st : CompanyStatus.t) (e : exn) :
  (search_companies web name reg (Some st)).2 = Raise e
  ↔ load_industry_codes (web sic_url) = Raise e
    ∨ ∃ codes descs rows1 r rows2,
        load_industry_codes (web sic_url) = Ok (codes, descs)
        ∧ findAll_tr_govuk_table_row (web (build_url name st))
          = rows1 ++ r :: rows2
        ∧ Forall (row_reads reg st codes descs) rows1
        ∧ row_body reg st codes descs [] r = Raise e.
Proof.
  rewrite search_companies_Some. cbn [snd]. split.
  - destruct (load_industry_codes (web sic_url)) as [[codes descs]|e'].
    + rsimpl. intros (rows1 & r & rows2 & Heq & Hall & Hr)%rows_loop_Raise_iff.
      right. by exists codes, descs, rows1, r, rows2.
    + rsimpl. intros [= ->]. by left.
  - intros [-> | (codes & descs & rows1 & r & rows2 & -> & Heq & Hall & Hr)];
      [done |].
    rsimpl. apply rows_loop_Raise_iff. by exists rows1, r, rows2.
Qed.

(** ** Where the fields of a company come from: lines 191-236 *)

Lemma bind_Ok_inv {A B} (f : A → result B) (m : result A) (b : B) :
  m ≫= f = Ok b → ∃ a, m = Ok a ∧ f a = Ok b.
Proof. destruct m as [a|e]; [| done]. rsimpl. eauto. Qed.

Lemma row_record_unset st codes descs n r c :
  row_record st codes descs n r = Ok c →
  next_statement_date c = None ∧ last_statement_date c = None
  ∧ next_accounts_date c = None ∧ last_accounts_date c = None
  ∧ previous_company_names c = None.
Proof.
  unfold row_record.
  destruct (row_primary_name _); [| done].
  destruct (row_company_type _); [| done].
  destruct (row_company_sub_type _); [| done].
  destruct (row_incorporation_date _); [| done].
  destruct (row_dissolved_date _); [| done].
  destruct (row_registered_office_address _); [| done].
  destruct (row_industry_codes _ _ _); [| done].
  rsimpl. by intros [= <-].
Qed.

Lemma row_industry_codes_item codes descs ul o :
  row_industry_codes codes descs ul = Ok o → ∃ t, li_text ul 6 = Ok t.
Proof.
  unfold row_industry_codes. intros (t & Ht & _)%bind_Ok_inv. eauto.
Qed.

Lemma six_items (lis : list string) t1 t2 t3 t4 t5 t6 :
  lis !! 0 = Some t1 → lis !! 1 = Some t2 → lis !! 2 = Some t3 →
  lis !! 3 = Some t4 → lis !! 4 = Some t5 → lis !! 5 = Some t6 →
  ∃ more, lis = t1 :: t2 :: t3 :: t4 :: t5 :: t6 :: more.
Proof.
  destruct lis as [|x1 [|x2 [|x3 [|x4 [|x5 [|x6 more]]]]]]; try done.
  intros [= ->] [= ->] [= ->] [= ->] [= ->] [= ->]. by exists more.
Qed.

(** The items behind the type, the sub type and the address. *)
Lemma row_record_items st codes descs n r c :
  row_record st codes descs n r = Ok c →
  ∃ a t1 t2 t3 t4 t5 t6 more,
    a_data r = Some a
    ∧ ul_data r = Some (t1 :: t2 :: t3 :: t4 :: t5 :: t6 :: more)
    ∧ enum_value (company_type c) = t1
    ∧ match company_sub_type c with
      | Some m => enum_value m = t2
      | None => t2 = ""
      end
    ∧ registered_office_address c = t5.
Proof.
  intros Hc.
  pose proof (row_record_Ok _ _ _ _ _ _ Hc)
    as (Hname & _ & Haddr & _ & Hty & Hsub & Hinc & Hdis & Hic).
  rewrite row_primary_name_eq in Hname.
  apply fmap_Ok_inv in Hname as (a & Ha%a_text_Ok & _).
  rewrite row_company_type_eq in Hty.
  apply bind_Ok_inv in Hty as (t1 & H1 & Hcall%enum_call_Ok).
  rewrite row_company_sub_type_eq in Hsub.
  apply bind_Ok_inv in Hsub as (t2 & H2 & Hsub).
  rewrite row_incorporation_date_eq in Hinc.
  apply bind_Ok_inv in Hinc as (t3 & H3 & _).
  rewrite row_dissolved_date_eq in Hdis.
  apply bind_Ok_inv in Hdis as (t4 & H4 & _).
  unfold row_registered_office_address in Haddr.
  apply row_industry_codes_item in Hic as (t6 & H6).
  apply li_text_Ok in H1 as (lis & Hul & Hl1).
  rewrite Hul, li_text_Some in H2, H3, H4, Haddr, H6.
  cbn [Nat.sub] in *.
  destruct (lis !! 1) as [x2|] eqn:Hl2; [| done]. injection H2 as ->.
  destruct (lis !! 2) as [x3|] eqn:Hl3; [| done]. injection H3 as ->.
  destruct (lis !! 3) as [x4|] eqn:Hl4; [| done]. injection H4 as ->.
  destruct (lis !! 4) as [x5|] eqn:Hl5; [| done]. injection Haddr as Haddr.
  destruct (lis !! 5) as [x6|] eqn:Hl6; [| done]. injection H6 as ->.
  destruct (six_items _ _ _ _ _ _ _ Hl1 Hl2 Hl3 Hl4 Hl5 Hl6) as [more ->].
  exists a, t1, t2, t3, t4, x5, t6, more.
  split; [done |]. split; [done |]. split; [done |]. split; [| done].
  destruct t2 as [|ch t2].
  - by injection Hsub as <-.
  - cbn [str_truthy] in Hsub.
    apply fmap_Ok_inv in Hsub as (m & Hm%enum_call_Ok & ->). done.
Qed.

(** X5: every company returned comes from a row of the page that has a
    link and at least six list items.  Its type is the member whose
    value is the first item, as it stands; its sub type is null when
    the second item is empty and otherwise the member whose value is
    the second item; its address is the fifth item unchanged; and its
    four statement and accounts dates and its previous names are
    null. *)
Theorem X5_fields_of_a_company
    (web : string → soup) (name reg : option string)
    (st : CompanyStatus.t) (cs : list Company) :
  (search_companies web name reg (Some st)).2 = Ok cs →
  Forall (λ c,
    ∃ r a t1 t2 t3 t4 t5 t6 more,
      r ∈ findAll_tr_govuk_table_row (web (build_url name st))
      ∧ a_data r = Some a
      ∧ ul_data r = Some (t1 :: t2 :: t3 :: t4 :: t5 :: t6 :: more)
      ∧ enum_value (company_type c) = t1
      ∧ match company_sub_type c with
        | Some m => enum_value m = t2
        | None => t2 = ""
        end
      ∧ registered_office_address c = t5
      ∧ next_statement_date c = None ∧ last_statement_date c = None
      ∧ next_accounts_date c = None ∧ last_accounts_date c = None
      ∧ previous_company_names c = None) cs.
Proof.
  intros (codes & descs & _ & _ & Hloop)%search_companies_Ok.
  eapply rows_loop_Forall; [exact Hloop | done |].
  intros r n c Hr _ _ Hc.
  destruct (row_record_items _ _ _ _ _ _ Hc)
    as (a & t1 & t2 & t3 & t4 & t5 & t6 & more & Ha & Hul & Hty & Hsub & Haddr).
  exists r, a, t1, t2, t3, t4, t5, t6, more.
  repeat (split; [done |]). by eapply row_record_unset.
Qed.

Lemma X5_witness :
  Forall (λ c,
    ∃ r a t1 t2 t3 t4 t5 t6 more,
      r ∈ findAll_tr_govuk_table_row
            (sample_web (build_url None CompanyStatus.ACTIVE))
      ∧ a_data r = Some a
      ∧ ul_data r = Some (t1 :: t2 :: t3 :: t4 :: t5 :: t6 :: more)
      ∧ enum_value (company_type c) = t1
      ∧ match company_sub_type c with
        | Some m => enum_value m = t2
        | None => t2 = ""
        end
      ∧ registered_office_address c = t5
      ∧ next_statement_date c = None ∧ last_statement_date c = None
      ∧ next_accounts_date c = None ∧ last_accounts_date c = None
      ∧ previous_company_names c = None)
    [mkCompany "ATRADIUS EXAMPLE C.I.C. " "07850377"
       "12 New Street, Huddersfield, England HD1 2AR"
       CompanyStatus.ACTIVE
       CompanyType.PRIVATE_LIMITED_BY_GUARANTEE_WITHOUT_SHARE_CAPITAL
       (Some CompanySubType.COMMUNITY_INTEREST_COMPANY)
       (Some (mkdate 2011 11 16)) (Some (mkdate 2018 9 11))
       None None None None
       (Some [mkIndustryCode "78109" "Other activities of employment placement agencies";
              mkIndustryCode "88100" ""])
       None].
Proof.
  apply (X5_fields_of_a_company sample_web None None CompanyStatus.ACTIVE).
  vm_compute. reflexivity.
Defined.

(** ** The dates: lines 202-214 *)

Lemma on_date_None t : on_date t = Ok None → str_in " on " t = false.
Proof.
  unfold on_date. rewrite str_in_cut.
  destruct (str_cut " on " t) as [[a b]|]; [| done].
  by intros (d' & _ & [=])%fmap_Ok_inv.
Qed.

(** X6: a returned company has an incorporation date exactly when the
    third item of its row has " on " in it, and a dissolution date
    exactly when the fourth item has.  A null date never stands for a
    date that failed to parse: an item with " on " either gives the
    company a date or ends the search. *)
Theorem X6_date_exactly_when_on
    (web : string → soup) (name reg : option string)
    (st : CompanyStatus.t) (cs : list Company) :
  (search_companies web name reg (Some st)).2 = Ok cs →
  Forall (λ c,
    ∃ r lis t3 t4,
      r ∈ findAll_tr_govuk_table_row (web (build_url name st))
      ∧ ul_data r = Some lis ∧ lis !! 2 = Some t3 ∧ lis !! 3 = Some t4
      ∧ (incorporation_date c = None ↔ str_in " on " t3 = false)
      ∧ (dissolved_date c = None ↔ str_in " on " t4 = false)
      ∧ on_date t3 = Ok (incorporation_date c)
      ∧ on_date t4 = Ok (dissolved_date c)) cs.
Proof.
  intros (codes & descs & _ & _ & Hloop)%search_companies_Ok.
  eapply rows_loop_Forall; [exact Hloop | done |].
  intros r n c Hr _ _ Hc.
  apply row_record_Ok in Hc as (_ & _ & _ & _ & _ & _ & Hinc & Hdis & _).
  rewrite row_incorporation_date_eq in Hinc.
  apply bind_Ok_inv in Hinc as (t3 & H3 & Hinc).
  rewrite row_dissolved_date_eq in Hdis.
  apply bind_Ok_inv in Hdis as (t4 & H4 & Hdis).
  apply li_text_Ok in H3 as (lis & Hul & Hl3).
  rewrite Hul, li_text_Some in H4. cbn [Nat.sub] in *.
  destruct (lis !! 3) as [x4|] eqn:Hl4; [| done]. injection H4 as ->.
  exists r, lis, t3, t4. repeat (split; [done |]).
  split; [| split; [| done]].
  - split.
    + intros Hn. rewrite Hn in Hinc. by apply on_date_None.
    + intros Hn%on_date_absent. rewrite Hn in Hinc. by injection Hinc.
  - split.
    + intros Hn. rewrite Hn in Hdis. by apply on_date_None.
    + intros Hn%on_date_absent. rewrite Hn in Hdis. by injection Hdis.
Qed.

Lemma X6_witness :
  Forall (λ c,
    ∃ r lis t3 t4,
      r ∈ findAll_tr_govuk_table_row
            (web_of [foo_row] [] (build_url None CompanyStatus.ACTIVE))
      ∧ ul_data r = Some lis ∧ lis !! 2 = Some t3 ∧ lis !! 3 = Some t4
      ∧ (incorporation_date c = None ↔ str_in " on " t3 = false)
      ∧ (dissolved_date c = None ↔ str_in " on " t4 = false)
      ∧ on_date t3 = Ok (incorporation_date c)
      ∧ on_date t4 = Ok (dissolved_date c))
    [mkCompany "Foo Ltd " "0780123" "" CompanyStatus.ACTIVE
       CompanyType.PRIVATE_LIMITED_COMPANY None
       (Some (mkdate 2011 11 16)) None None None None None None None].
Proof.
  apply (X6_date_exactly_when_on (web_of [foo_row] []) None None
           CompanyStatus.ACTIVE).
  vm_compute. reflexivity.
Defined.

(** ** What the splits leave out and keep: lines 184, 191, 220 *)

Lemma startswith_append_r (p a x : string) :
  startswith p a = true → startswith p (a +:+ x) = true.
Proof.
  revert a. induction p as [|c p IH]; intros a; [done |].
  destruct a as [|d a]; [done |]. rewrite append_cons. simpl.
  intros [Hc Hp]%andb_true_iff. rewrite Hc. simpl. by apply IH.
Qed.

(** The text in front of a cut has no separator in it. *)
Lemma str_cut_front_free c sep s a b :
  str_cut (String c sep) s = Some (a, b) → str_in (String c sep) a = false.
Proof.
  revert a. induction s as [|d s IH]; intros a.
  - simpl. done.
  - cbn [str_cut].
    destruct (startswith (String c sep) (String d s)) eqn:Hst.
    + by intros [= <- <-].
    + destruct (str_cut (String c sep) s) as [[a' b']|] eqn:Hcut; [| done].
      intros [= <- <-]. cbn [str_in]. rewrite (IH a' eq_refl), orb_false_r.
      destruct (startswith (String c sep) (String d a')) eqn:Hst'; [| done].
      apply str_cut_Some in Hcut. rewrite Hcut, <-append_cons in Hst.
      by rewrite (startswith_append_r _ _ _ Hst') in Hst.
Qed.

Lemma str_before_free c sep s :
  str_in (String c sep) (str_before (String c sep) s) = false.
Proof.
  unfold str_before.
  destruct (str_cut (String c sep) s) as [[a b]|] eqn:Hcut.
  - by eapply str_cut_front_free.
  - by apply str_in_false.
Qed.

(** No piece of a split has the separator in it. *)
Lemma str_pieces_free c sep s :
  Forall (λ p, str_in (String c sep) p = false) (str_pieces (String c sep) s).
Proof.
  remember (String.length s) as n eqn:Hn. revert s Hn.
  induction n as [n IH] using lt_wf_ind. intros s ->.
  rewrite str_pieces_unfold.
  destruct (str_cut (String c sep) s) as [[a b]|] eqn:Hcut.
  - pose proof (str_cut_length _ _ _ _ Hcut) as Hlen. simpl in Hlen.
    constructor; [by eapply str_cut_front_free |].
    apply (IH (String.length b)); [lia | done].
  - constructor; [by apply str_in_false | done].
Qed.

Lemma industry_codes_of_text_Some m t l :
  industry_codes_of_text m t = Ok (Some l) →
  ∃ before rest,
    str_cut " - " t = Some (before, rest)
    ∧ l = industry_code_of m <$> str_pieces ", " (str_before " - " rest).
Proof.
  unfold industry_codes_of_text. destruct (str_truthy t); [| done].
  destruct (str_cut " - " t) as [[a b]|]; [| done].
  intros [= <-]. by exists a, b.
Qed.

(** X7: no returned company has " - " in its registration number or
    "(" in its name, and none of its industry codes has ", " in it;
    a company that has industry codes has at least one.  The codes,
    joined again by ", ", spell the piece of the sixth item they were
    cut from, and the sixth item is the text in front of its first
    " - ", the " - " and the rest. *)
Theorem X7_separators_stay_out
    (web : string → soup) (name reg : option string)
    (st : CompanyStatus.t) (cs : list Company) :
  (search_companies web name reg (Some st)).2 = Ok cs →
  Forall (λ c,
    str_in " - " (local_registration_number c) = false
    ∧ str_in "(" (primary_name c) = false
    ∧ ∀ l, industry_codes c = Some l →
        l ≠ []
        ∧ Forall (λ ic, str_in ", " (code ic) = false) l
        ∧ ∃ r lis t6 before rest,
            r ∈ findAll_tr_govuk_table_row (web (build_url name st))
            ∧ ul_data r = Some lis ∧ lis !! 5 = Some t6
            ∧ t6 = before +:+ " - " +:+ rest
            ∧ str_join ", " (code <$> l) = str_before " - " rest) cs.
Proof.
  intros (codes & descs & _ & Hlen & Hloop)%search_companies_Ok.
  eapply rows_loop_Forall; [exact Hloop | done |].
  intros r n c Hr Hn _ Hc.
  destruct (row_record_sources _ _ _ _ _ _ Hn Hc)
    as (a & lis & t3 & Ha & Hul & Hl3 & Hname & Hnum).
  split; [rewrite Hnum; apply str_before_free |].
  split; [rewrite Hname; apply take_until_free |].
  intros l Hl.
  apply row_record_Ok in Hc as (_ & _ & _ & _ & _ & _ & _ & _ & Hic).
  rewrite row_industry_codes_eq, Hl in Hic by done.
  apply bind_Ok_inv in Hic as (t6 & H6 & Hic).
  apply industry_codes_of_text_Some in Hic as (before & rest & Hcut & ->).
  rewrite Hul, li_text_Some in H6. cbn [Nat.sub] in H6.
  destruct (lis !! 5) as [x6|] eqn:Hl6; [| done]. injection H6 as ->.
  split.
  { intros Hnil%fmap_nil_inv. by apply str_pieces_nonempty in Hnil. }
  split.
  { apply Forall_fmap. apply str_pieces_free. }
  exists r, lis, t6, before, rest. repeat (split; [done |]).
  split; [by apply str_cut_Some |].
  rewrite industry_code_of_code. apply str_join_pieces.
Qed.

Lemma X7_witness :
  Forall (λ c,
    str_in " - " (local_registration_number c) = false
    ∧ str_in "(" (primary_name c) = false
    ∧ ∀ l, industry_codes c = Some l →
        l ≠ []
        ∧ Forall (λ ic, str_in ", " (code ic) = false) l
        ∧ ∃ r lis t6 before rest,
            r ∈ findAll_tr_govuk_table_row
                  (sample_web (build_url None CompanyStatus.ACTIVE))
            ∧ ul_data r = Some lis ∧ lis !! 5 = Some t6
            ∧ t6 = before +:+ " - " +:+ rest
            ∧ str_join ", " (code <$> l) = str_before " - " rest)
    [mkCompany "ATRADIUS EXAMPLE C.I.C. " "07850377"
       "12 New Street, Huddersfield, England HD1 2AR"
       CompanyStatus.ACTIVE
       CompanyType.PRIVATE_LIMITED_BY_GUARANTEE_WITHOUT_SHARE_CAPITAL
       (Some CompanySubType.COMMUNITY_INTEREST_COMPANY)
       (Some (mkdate 2011 11 16)) (Some (mkdate 2018 9 11))
       None None None None
       (Some [mkIndustryCode "78109" "Other activities of employment placement agencies";
              mkIndustryCode "88100" ""])
       None].
Proof.
  apply (X7_separators_stay_out sample_web None None CompanyStatus.ACTIVE).
  vm_compute. reflexivity.
Defined.

(** ** The registration-number test: lines 186-190 *)

Lemma str_in_empty (s : string) : str_in "" s = true.
Proof. by destruct s. Qed.

Lemma str_in_append (a x y : string) : str_in a (x +:+ a +:+ y) = true.
Proof.
  induction x as [|c x IH].
  - rewrite append_nil. destruct (a +:+ y) eqn:E; simpl;
      rewrite <-E, startswith_append; done.
  - rewrite append_cons. cbn [str_in]. rewrite IH. apply orb_true_r.
Qed.

Lemma str_in_refl (s : string) : str_in s s = true.
Proof.
  pose proof (str_in_append s "" "") as H.
  by rewrite append_nil, append_empty_r in H.
Qed.

(** Being part of a text carries over to a text it is part of. *)
Lemma str_in_trans (a b c : string) :
  str_in a b = true → str_in b c = true → str_in a c = true.
Proof.
  intros (u & v & ->%str_cut_Some)%str_in_true
         (x & y & ->%str_cut_Some)%str_in_true.
  rewrite !append_assoc, <-(append_assoc x u). apply str_in_append.
Qed.

Lemma rows_loop_narrow q1 q2 st codes descs rows acc cs :
  (∀ n, str_in q2 n = true → str_in q1 n = true) →
  rows_loop (Some q1) st codes descs rows acc = Ok cs →
  rows_loop (Some q2) st codes descs rows
    (List.filter (λ c, str_in q2 (local_registration_number c)) acc)
  = Ok (List.filter (λ c, str_in q2 (local_registration_number c)) cs).
Proof.
  intros Hq. revert acc. induction rows as [|r rows IH]; intros acc.
  - by intros [= <-].
  - cbn [rows_loop]. rewrite !row_body_eq.
    destruct (row_registration_number (ul_data r)) as [n|e]; [| done].
    rsimpl. rewrite !row_selected_Some.
    destruct (str_in q1 n) eqn:H1.
    + destruct (row_record st codes descs n r) as [c|e] eqn:Hc; [| done].
      rsimpl. intros Hloop%IH.
      rewrite List.filter_app in Hloop. cbn [List.filter] in Hloop.
      apply row_record_Ok in Hc as (_ & Hn & _). rewrite Hn in Hloop.
      destruct (str_in q2 n).
      * by rsimpl.
      * rsimpl. by rewrite app_nil_r in Hloop.
    + rsimpl. intros Hloop%IH.
      destruct (str_in q2 n) eqn:H2; [| by rsimpl].
      apply Hq in H2. congruence.
Qed.

(** X8: the empty text as registration number filters nothing: the
    search is the search without a registration number, in what it
    fetches and in what it returns or raises.  And a row is kept by
    its own number: a search for the whole number of a row does not
    drop that row. *)
Theorem X8_empty_and_whole_number
    (web : string → soup) (name : option string) (st : CompanyStatus.t) :
  search_companies web name (Some "") (Some st)
  = search_companies web name None (Some st)
  ∧ ∀ r n, row_registration_number (ul_data r) = Ok n →
           row_passes (Some n) r = true.
Proof.
  split.
  - rewrite !search_companies_Some. f_equal.
    destruct (load_industry_codes (web sic_url)) as [[codes descs]|e]; [| done].
    rsimpl. rewrite rows_loop_filter, filter_all; [done |].
    intros r. unfold row_kept.
    destruct (row_registration_number (ul_data r)); [| done].
    apply str_in_empty.
  - intros r n Hn. unfold row_passes.
    by rewrite Hn, row_selected_Some, str_in_refl.
Qed.

(** X9: a longer registration number narrows the search.  When [q1] is
    part of [q2] and the search for [q1] returns normally, the search
    for [q2] returns normally too, with those companies of the first
    result whose number contains [q2], in the same order. *)
Theorem X9_longer_number_narrows
    (web : string → soup) (name : option string) (q1 q2 : string)
    (st : CompanyStatus.t) (cs : list Company) :
  str_in q1 q2 = true →
  (search_companies web name (Some q1) (Some st)).2 = Ok cs →
  (search_companies web name (Some q2) (Some st)).2
  = Ok (List.filter (λ c, str_in q2 (local_registration_number c)) cs).
Proof.
  intros Hq (codes & descs & Hl & _ & Hloop)%search_companies_Ok.
  rewrite search_companies_Some. cbn [snd]. rewrite Hl. rsimpl.
  apply (rows_loop_narrow q1 q2) in Hloop; [done |].
  intros n. by apply str_in_trans.
Qed.

Lemma X9_witness :
  (search_companies (web_of [foo_row; sample_row; nameless_row] []) None
     (Some "0780") (Some CompanyStatus.ACTIVE)).2
  = Ok (List.filter (λ c, str_in "0780" (local_registration_number c))
          [mkCompany "Foo Ltd " "0780123" "" CompanyStatus.ACTIVE
             CompanyType.PRIVATE_LIMITED_COMPANY None
             (Some (mkdate 2011 11 16)) None None None None None None None;
           mkCompany "ATRADIUS EXAMPLE C.I.C. " "07850377"
             "12 New Street, Huddersfield, England HD1 2AR"
             CompanyStatus.ACTIVE
             CompanyType.PRIVATE_LIMITED_BY_GUARANTEE_WITHOUT_SHARE_CAPITAL
             (Some CompanySubType.COMMUNITY_INTEREST_COMPANY)
             (Some (mkdate 2011 11 16)) (Some (mkdate 2018 9 11))
             None None None None
             (Some [mkIndustryCode "78109" ""; mkIndustryCode "88100" ""])
             None]).
Proof.
  apply (X9_longer_number_narrows (web_of [foo_row; sample_row; nameless_row] [])
           None "078" "0780" CompanyStatus.ACTIVE).
  - reflexivity.
  - vm_compute. reflexivity.
Defined.

(** ** Rows that are longer or shorter than six items *)

Lemma li_text_take (lis : list string) (n : nat) :
  n ≤ 6 → li_text (Some lis) n = li_text (Some (take 6 lis)) n.
Proof.
  intros Hn. rewrite !li_text_Some.
  destruct n as [|n]; cbn [Nat.sub].
  - destruct lis; done.
  - rewrite Nat.sub_0_r, lookup_take_lt by lia. done.
Qed.

Lemma row_body_take reg st codes descs cs a (lis : list string) :
  row_body reg st codes descs cs (mkRow a (Some lis))
  = row_body reg st codes descs cs (mkRow a (Some (take 6 lis))).
Proof.
  unfold row_body, row_registration_number, row_company_type,
    row_company_sub_type, row_incorporation_date, row_dissolved_date,
    row_registered_office_address, row_industry_codes.
  cbn [a_data ul_data].
  rewrite (li_text_take lis 1), (li_text_take lis 2), (li_text_take lis 3),
    (li_text_take lis 4), (li_text_take lis 5), (li_text_take lis 6) by lia.
  done.
Qed.

(** X10: of a row the search reads the link and the first six list
    items and nothing else: two rows with the same link whose lists
    agree on the first six items are read alike, whatever follows. *)
Theorem X10_only_six_items_are_read
    (reg : option string) (st : CompanyStatus.t) (codes descs : list string)
    (cs : list Company) (a : option string) (lis lis' : list string) :
  take 6 lis = take 6 lis' →
  row_body reg st codes descs cs (mkRow a (Some lis))
  = row_body reg st codes descs cs (mkRow a (Some lis')).
Proof.
  intros Htake. by rewrite (row_body_take _ _ _ _ _ _ lis),
    (row_body_take _ _ _ _ _ _ lis'), Htake.
Qed.

Lemma X10_witness :
  row_body None CompanyStatus.ACTIVE [] [] []
    (mkRow (Some "Foo Ltd")
       (Some ["Private limited company"; ""; "0780123"; ""; "1 High Street";
              ""; "a seventh item"]))
  = row_body None CompanyStatus.ACTIVE [] [] []
      (mkRow (Some "Foo Ltd")
         (Some ["Private limited company"; ""; "0780123"; ""; "1 High Street";
                ""])).
Proof.
  apply (X10_only_six_items_are_read None CompanyStatus.ACTIVE [] [] []
           (Some "Foo Ltd")).
  reflexivity.
Defined.

Lemma row_registration_number_short (lis : list string) :
  length lis < 3 → row_registration_number (Some lis) = Raise IndexError.
Proof.
  intros Hlen. rewrite row_registration_number_eq, li_text_Some.
  cbn [Nat.sub]. rewrite (lookup_ge_None_2 lis 2) by lia. done.
Qed.

(** X11: a row the search cannot pass over.  When the rows in front of
    it are read, a results row without a list ends the search with an
    AttributeError and a row with fewer than three list items ends it
    with an IndexError, both whatever the registration number asked
    for; a row without a link ends it with an AttributeError when the
    row passes the registration-number test, and is passed over like
    any other row when it does not. *)
Theorem X11_rows_without_list_or_link
    (web : string → soup) (name reg : option string) (st : CompanyStatus.t)
    (codes descs : list string) (rows1 rows2 : list result_row)
    (r : result_row) :
  load_industry_codes (web sic_url) = Ok (codes, descs) →
  findAll_tr_govuk_table_row (web (build_url name st)) = rows1 ++ r :: rows2 →
  Forall (row_reads reg st codes descs) rows1 →
  (ul_data r = None →
   (search_companies web name reg (Some st)).2
   = Raise (AttributeError "select"))
  ∧ (∀ lis, ul_data r = Some lis → length lis < 3 →
       (search_companies web name reg (Some st)).2 = Raise IndexError)
  ∧ (∀ n, a_data r = None →
       row_registration_number (ul_data r) = Ok n →
       (row_selected reg n = true →
        (search_companies web name reg (Some st)).2
        = Raise (AttributeError "text"))
       ∧ (row_selected reg n = false →
          ∀ cs, row_body reg st codes descs cs r = Ok cs)).
Proof.
  intros Hload Hrows Hall.
  assert (Hraise : ∀ e, row_body reg st codes descs [] r = Raise e →
            (search_companies web name reg (Some st)).2 = Raise e).
  { intros e He. rewrite search_companies_Some. cbn [snd].
    rewrite Hload, Hrows. rsimpl. apply rows_loop_Raise_iff.
    by exists rows1, r, rows2. }
  split; [| split].
  - intros Hul. apply Hraise. rewrite row_body_eq, Hul. done.
  - intros lis Hul Hlen. apply Hraise.
    by rewrite row_body_eq, Hul, row_registration_number_short.
  - intros n Ha Hn. split.
    + intros Hsel. apply Hraise. rewrite row_body_eq, Hn. rsimpl.
      rewrite Hsel. unfold row_record. cbn zeta. by rewrite Ha.
    + intros Hsel cs. rewrite row_body_eq, Hn. rsimpl. by rewrite Hsel.
Qed.

Lemma X11_witness :
  (search_companies (web_of [foo_row; mkRow None None; sample_row] []) None
     (Some "999") (Some CompanyStatus.ACTIVE)).2
  = Raise (AttributeError "select").
Proof.
  refine (proj1 (X11_rows_without_list_or_link
            (web_of [foo_row; mkRow None None; sample_row] []) None
            (Some "999") CompanyStatus.ACTIVE [] [] [foo_row] [sample_row]
            (mkRow None None) eq_refl eq_refl _) eq_refl).
  constructor; [| constructor]. exists []. vm_compute. reflexivity.
Defined.

(** ** The script's own call: lines 241-245 *)

(** X12: run as a script, the program searches for the name
    "Atradius" with no registration number and the status ACTIVE: it
    fetches the search URL that ends in "Atradius&status=active" and
    then the SIC page, and when it returns normally it has one company
    for each row of the results page, each with the status ACTIVE. *)
Theorem X12_script_call (web : string → soup) :
  main web
  = search_companies web (Some "Atradius") None (Some CompanyStatus.ACTIVE)
  ∧ (main web).1 = [search_url +:+ "Atradius&status=active"; sic_url]
  ∧ ∀ cs, (main web).2 = Ok cs →
      length cs
      = length (findAll_tr_govuk_table_row
                  (web (search_url +:+ "Atradius&status=active")))
      ∧ Forall (λ c, status c = CompanyStatus.ACTIVE) cs.
Proof.
  split; [done |]. split; [done |].
  intros cs (codes & descs & _ & _ & Hloop)%search_companies_Ok.
  split.
  - apply rows_loop_Ok_iff in Hloop as (l & -> & Hl).
    apply Forall2_length in Hl. rewrite app_nil_l, <-Hl, filter_all; [done |].
    apply row_passes_None.
  - by eapply rows_loop_all_status.
Qed.
